(** * Temperature and humidity trends dashboard (streamlit_app.py)

    A shallow embedding of the filter -> bucket -> aggregate -> pivot chain
    of [streamlit_app.py], together with the properties that the design
    document states about it.

    Conventions of the embedding.
    - A timestamp is an integer count of nanoseconds on the wall-clock time
      line (a warehouse TIMESTAMP_NTZ, a Python naive [datetime]); a date is
      a count of days and a time of day a count of nanoseconds since
      midnight.
    - The measured quantities and their averages are binary64
      floating-point numbers, as the warehouse's FLOAT columns and pandas'
      float64 columns hold them; the warehouse's sum adds its terms one
      after the other in row order, pandas' sum in numpy's blocks.
    - The columns of [telemetry_curated] that the script reads are populated
      (no NULL in them).
    - The warehouse and pandas calls are embedded by what they compute:
      [filter] as a list filter, [group_by]/[agg] as one row per distinct
      key, [sort] as a relation (any reordering that is ascending in the
      sort key), [pivot] as the table it builds or the error it raises. *)

From Stdlib Require Import Floats Uint63.
From Stdlib Require Import ZArith List Bool String Ascii Lia.
From Stdlib Require Import Sorting.Sorted Sorting.Permutation.
Import ListNotations.

#[local] Set Warnings "-inexact-float".

Local Open Scope string_scope.
Local Open Scope list_scope.
Local Open Scope Z_scope.

(** ** Time *)

Module Time.

Definition ns_per_second : Z := 1000000000.
Definition ns_per_minute : Z := 60 * ns_per_second.
Definition ns_per_hour : Z := 60 * ns_per_minute.
Definition ns_per_day : Z := 24 * ns_per_hour.

(** [datetime.combine(d, t)] *)
Definition combine (d : Z) (t : Z) : Z := d * ns_per_day + t.

(** [.date()] and [.time()] of a timestamp *)
Definition date_of (t : Z) : Z := t / ns_per_day.
Definition time_of (t : Z) : Z := t mod ns_per_day.

(** [pd.Timedelta(hours=h)], [pd.Timedelta(days=d)] *)
Definition Timedelta_hours (h : Z) : Z := h * ns_per_hour.
Definition Timedelta_days (d : Z) : Z := d * ns_per_day.

End Time.

(** The options of the "Time granularity" select box. *)
Inductive Granularity : Type := minute | hour | day.

Definition granularity_name (g : Granularity) : string :=
  match g with
  | minute => "minute"
  | hour => "hour"
  | day => "day"
  end.

(** Width of the unit a granularity truncates to. *)
Definition unit_of (g : Granularity) : Z :=
  match g with
  | minute => Time.ns_per_minute
  | hour => Time.ns_per_hour
  | day => Time.ns_per_day
  end.

(** [DATE_TRUNC(g, ts)]: the components of [ts] below the unit are zeroed. *)
Definition DATE_TRUNC (g : Granularity) (t : Z) : Z := t - t mod unit_of g.

(** An instant is aligned when nothing is left below the unit. *)
Definition aligned (g : Granularity) (t : Z) : Prop := t mod unit_of g = 0.

(** ** List operations shared by the warehouse and pandas models *)

Section ListOps.

Context {A : Type}.

(** Distinct values, in order of first occurrence ([SELECT DISTINCT], the
    group keys of [group_by], [Series.unique]). *)
Fixpoint unique (eqb : A -> A -> bool) (l : list A) : list A :=
  match l with
  | [] => []
  | x :: t => x :: filter (fun y => negb (eqb x y)) (unique eqb t)
  end.

(** Does some value occur twice? *)
Fixpoint has_duplicates (eqb : A -> A -> bool) (l : list A) : bool :=
  match l with
  | [] => false
  | x :: t => existsb (eqb x) t || has_duplicates eqb t
  end.

Fixpoint insert_sorted (leb : A -> A -> bool) (x : A) (l : list A) : list A :=
  match l with
  | [] => [x]
  | y :: t => if leb x y then x :: y :: t else y :: insert_sorted leb x t
  end.

(** A sort that keeps rows with equal keys in their incoming order. *)
Fixpoint sort_with (leb : A -> A -> bool) (l : list A) : list A :=
  match l with
  | [] => []
  | x :: t => insert_sorted leb x (sort_with leb t)
  end.

(** Ascending in an integer key. *)
Definition ascending_by (key : A -> Z) (l : list A) : Prop :=
  StronglySorted (fun a b => key a <= key b) l.

(** What a sort on one integer key promises: the same rows, ascending in
    the key.  Rows with equal keys may come in any order. *)
Definition sorted_by (key : A -> Z) (l out : list A) : Prop :=
  Permutation l out /\ ascending_by key out.

Definition sort_by (key : A -> Z) (l : list A) : list A :=
  sort_with (fun a b => key a <=? key b) l.

End ListOps.

(** [x in l] on strings, [Column.isin], [Series.isin] *)
Definition isin (s : string) (l : list string) : bool :=
  existsb (String.eqb s) l.

(** Python's [sorted] on strings *)
Definition sorted_strings (l : list string) : list string :=
  sort_with String.leb l.

(** ** Numbers *)

(** A sum of binary64 numbers, one addition after the other in list
    order. *)
Definition fsum (l : list float) : float :=
  match l with
  | [] => PrimFloat.zero
  | x :: t => fold_left PrimFloat.add t x
  end.

(** A count as a binary64 number. *)
Definition count_of (n : nat) : float :=
  PrimFloat.of_uint63 (Uint63.of_Z (Z.of_nat n)).

(** The warehouse's [AVG] over the members of a group: their sum divided
    by their count, in binary64.  A group has at least one member. *)
Definition AVG (l : list float) : float :=
  PrimFloat.div (fsum l) (count_of (List.length l)).

(** pandas leaves missing values (NaN) out of its reductions. *)
Definition notna (x : float) : bool := negb (PrimFloat.is_nan x).

Definition fillna_zero (x : float) : float :=
  if PrimFloat.is_nan x then PrimFloat.zero else x.

(** The larger and the smaller of two numbers neither of which is NaN;
    the first one when they compare equal. *)
Definition fmax2 (a b : float) : float := if PrimFloat.leb b a then a else b.
Definition fmin2 (a b : float) : float := if PrimFloat.leb a b then a else b.

(** numpy adds the terms of a long sum in blocks.  Fewer than eight terms
    are added one after the other; up to 128 terms go to eight running
    sums, term [i] to sum [i mod 8] as long as whole blocks of eight are
    left, the eight sums are then added in pairs and the remaining terms
    one after the other; longer arrays are cut in two near the middle, at
    a multiple of eight, and the sums of the halves are added. *)
Fixpoint add_lists (r l : list float) : list float :=
  match r, l with
  | x :: r', y :: l' => PrimFloat.add x y :: add_lists r' l'
  | _, _ => r
  end.

Fixpoint add_blocks (fuel : nat) (r l : list float)
  : list float * list float :=
  match fuel with
  | O => (r, l)
  | S f =>
      if (8 <=? List.length l)%nat
      then add_blocks f (add_lists r (firstn 8 l)) (skipn 8 l)
      else (r, l)
  end.

Definition add_pairs (r : list float) : float :=
  match r with
  | [r0; r1; r2; r3; r4; r5; r6; r7] =>
      PrimFloat.add
        (PrimFloat.add (PrimFloat.add r0 r1) (PrimFloat.add r2 r3))
        (PrimFloat.add (PrimFloat.add r4 r5) (PrimFloat.add r6 r7))
  | _ => fsum r
  end.

Fixpoint pairwise_sum (fuel : nat) (l : list float) : float :=
  let n := List.length l in
  if (n <? 8)%nat then fold_left PrimFloat.add l PrimFloat.zero
  else if (n <=? 128)%nat then
    let '(r, rest) := add_blocks n (firstn 8 l) (skipn 8 l) in
    fold_left PrimFloat.add rest (add_pairs r)
  else
    match fuel with
    | O => PrimFloat.zero
    | S f =>
        let n2 := (n / 2 - (n / 2) mod 8)%nat in
        PrimFloat.add (pairwise_sum f (firstn n2 l))
                      (pairwise_sum f (skipn n2 l))
    end.

(** [ndarray.sum()] of a float64 column *)
Definition np_sum (l : list float) : float :=
  PrimFloat.add PrimFloat.zero (pairwise_sum (List.length l) l).

(** [Series.mean()]: the values, NaN counting for zero, are summed and
    divided by the number of values that are not NaN; NaN when there is
    none. *)
Definition series_mean (l : list float) : float :=
  match filter notna l with
  | [] => PrimFloat.nan
  | _ :: _ =>
      PrimFloat.div (np_sum (map fillna_zero l))
        (count_of (List.length (filter notna l)))
  end.

(** [Series.max()], [Series.min()]: over the values that are not NaN; NaN
    when there is none. *)
Definition series_max (l : list float) : float :=
  match filter notna l with
  | [] => PrimFloat.nan
  | x :: t => fold_left fmax2 t x
  end.

Definition series_min (l : list float) : float :=
  match filter notna l with
  | [] => PrimFloat.nan
  | x :: t => fold_left fmin2 t x
  end.

(** ** The table [telemetry_curated] and the sidebar *)

Record Reading : Type := mkReading {
  ts : Z;
  site : string;
  room : string;
  sensor_id : string;
  temp_c : float;
  humidity : float
}.

(** What the sidebar widgets return. *)
Record Criteria : Type := mkCriteria {
  start_date : Z;
  end_date : Z;
  start_time : Z;
  end_time : Z;
  granularity : Granularity;
  sel_sites : list string;
  sel_rooms : list string
}.

Definition start_dt (c : Criteria) : Z :=
  Time.combine (start_date c) (start_time c).

Definition end_dt (c : Criteria) : Z :=
  Time.combine (end_date c) (end_time c).

(** *** Date range bounds *)

Definition Zmin_list (l : list Z) : option Z :=
  match l with
  | [] => None
  | x :: t => Some (fold_left Z.min t x)
  end.

Definition Zmax_list (l : list Z) : option Z :=
  match l with
  | [] => None
  | x :: t => Some (fold_left Z.max t x)
  end.

(** [SELECT MIN(ts) AS min_ts, MAX(ts) AS max_ts FROM telemetry_curated]:
    an aggregate query without GROUP BY answers with one row whatever the
    table holds; over no rows both cells of that row are NULL. *)
Definition select_min_max (table : list Reading)
  : list (option Z * option Z) :=
  [(Zmin_list (map ts table), Zmax_list (map ts table))].

(** [bounds.empty] *)
Definition frame_empty {A : Type} (rows : list A) : bool :=
  match rows with
  | [] => true
  | _ :: _ => false
  end.

(** [pd.to_datetime(bounds[column][0])]: the first cell of a column, NULL
    read as the missing timestamp NaT ([None]). *)
Definition first_cell {A B : Type} (column : A -> option B) (rows : list A)
  : option B :=
  match rows with
  | [] => None
  | r :: _ => column r
  end.

(** [min_ts] and [max_ts] as the sidebar computes them; [now] is
    [pd.Timestamp.utcnow()]. *)
Definition min_ts (now : Z) (table : list Reading) : option Z :=
  let bounds := select_min_max table in
  if negb (frame_empty bounds) then first_cell fst bounds
  else Some (now - Time.Timedelta_days 1).

Definition max_ts (now : Z) (table : list Reading) : option Z :=
  let bounds := select_min_max table in
  if negb (frame_empty bounds) then first_cell snd bounds
  else Some now.

(** [default_start = max_ts - pd.Timedelta(hours=1)]; arithmetic on NaT
    gives NaT. *)
Definition default_start (now : Z) (table : list Reading) : option Z :=
  option_map (fun m => m - Time.Timedelta_hours 1) (max_ts now table).

(** The window the fallback branch of the script spells out. *)
Definition fallback_window (now : Z) : option Z * option Z :=
  (Some (now - Time.Timedelta_days 1), Some now).

(** *** Filter *)

Definition in_range (c : Criteria) (r : Reading) : bool :=
  (start_dt c <=? ts r) && (ts r <=? end_dt c).

(** [if sel: df = df.filter(col(column).isin(sel))] *)
Definition filter_isin (column : Reading -> string) (sel : list string)
  (df : list Reading) : list Reading :=
  match sel with
  | [] => df
  | _ :: _ => filter (fun r => isin (column r) sel) df
  end.

Definition filtered (c : Criteria) (base_df : list Reading) : list Reading :=
  filter_isin room (sel_rooms c)
    (filter_isin site (sel_sites c)
       (filter (in_range c) base_df)).

(** The predicate that the three chained filters amount to. *)
Definition passes (c : Criteria) (r : Reading) : bool :=
  in_range c r
  && (frame_empty (sel_sites c) || isin (site r) (sel_sites c))
  && (frame_empty (sel_rooms c) || isin (room r) (sel_rooms c)).

(** *** Bucketing and aggregation *)

Record AggRow : Type := mkAggRow {
  TS_BUCKET : Z;
  SITE : string;
  ROOM : string;
  AVG_TEMP_C : float;
  AVG_HUMIDITY : float
}.

Definition GroupKey : Type := Z * string * string.

Definition key_eqb (k1 k2 : GroupKey) : bool :=
  let '(b1, s1, r1) := k1 in
  let '(b2, s2, r2) := k2 in
  (b1 =? b2) && String.eqb s1 s2 && String.eqb r1 r2.

(** The grouping columns of a reading: [ts_bucket], [site], [room]. *)
Definition key_of (g : Granularity) (r : Reading) : GroupKey :=
  (DATE_TRUNC g (ts r), site r, room r).

Definition row_key (a : AggRow) : GroupKey := (TS_BUCKET a, SITE a, ROOM a).

(** The readings of one group. *)
Definition members (g : Granularity) (k : GroupKey) (df : list Reading)
  : list Reading :=
  filter (fun r => key_eqb k (key_of g r)) df.

Definition agg_row (g : Granularity) (df : list Reading) (k : GroupKey)
  : AggRow :=
  let m := members g k df in
  {| TS_BUCKET := fst (fst k);
     SITE := snd (fst k);
     ROOM := snd k;
     AVG_TEMP_C := AVG (map temp_c m);
     AVG_HUMIDITY := AVG (map humidity m) |}.

(** [df.select(...).group_by("ts_bucket", "site", "room").agg(AVG, AVG)] *)
Definition df_buck (g : Granularity) (df : list Reading) : list AggRow :=
  map (agg_row g df) (unique key_eqb (map (key_of g) df)).

(** [pdf = df_buck.sort("ts_bucket").to_pandas()]: [pdf] is a frame that the
    warehouse may answer with. *)
Definition query_result (c : Criteria) (base_df : list Reading)
  (pdf : list AggRow) : Prop :=
  sorted_by TS_BUCKET (df_buck (granularity c) (filtered c base_df)) pdf.

(** ** Presentation *)

(** [pdf["location"] = pdf["SITE"].astype(str) + " / " + pdf["ROOM"].astype(str)] *)
Definition location (a : AggRow) : string :=
  (SITE a ++ " / " ++ ROOM a)%string.

(** [sorted(pdf["location"].unique())] *)
Definition locations (pdf : list AggRow) : list string :=
  sorted_strings (unique String.eqb (map location pdf)).

(** [locations[: min(5, len(locations))]] *)
Definition default_locations (pdf : list AggRow) : list string :=
  firstn (Nat.min 5 (List.length (locations pdf))) (locations pdf).

(** [plot_df = pdf[pdf["location"].isin(sel_locs)].copy()] *)
Definition plot_df (pdf : list AggRow) (sel_locs : list string) : list AggRow :=
  filter (fun a => isin (location a) sel_locs) pdf.

(** *** Wide tables *)

(** A frame with an index of bucket timestamps, one column per location
    label and optional cells: [None] is the missing value. *)
Record Wide : Type := mkWide {
  index : list Z;
  columns : list string;
  cells : list (list (option float))
}.

Definition cell (w : Wide) (i j : nat) : option float :=
  nth j (nth i (cells w) []) None.

Definition pair_eqb (p q : Z * string) : bool :=
  (fst p =? fst q) && String.eqb (snd p) (snd q).

Definition at_cell (b : Z) (l : string) (a : AggRow) : bool :=
  pair_eqb (TS_BUCKET a, location a) (b, l).

(** The value that lands in cell ([b], [l]). *)
Definition cell_value (values : AggRow -> float) (rows : list AggRow)
  (b : Z) (l : string) : option float :=
  option_map values (find (at_cell b l) rows).

Inductive Step (A : Type) : Type :=
| Next (a : A)
| Stop
| Raise (err : string).

Arguments Next {A} a.
Arguments Stop {A}.
Arguments Raise {A} err.

(** [rows.pivot(index="TS_BUCKET", columns="location", values=...)]:
    pandas refuses to reshape when an (index, column) pair occurs twice;
    otherwise index and columns are the distinct values in ascending order
    and a pair without a row is left missing. *)
Definition pivot (values : AggRow -> float) (rows : list AggRow) : Step Wide :=
  if has_duplicates pair_eqb (map (fun a => (TS_BUCKET a, location a)) rows)
  then Raise "Index contains duplicate entries, cannot reshape"
  else
    let idx := sort_with Z.leb (unique Z.eqb (map TS_BUCKET rows)) in
    let cols := sorted_strings (unique String.eqb (map location rows)) in
    Next {| index := idx;
            columns := cols;
            cells := map (fun b => map (cell_value values rows b) cols) idx |}.

(** [.sort_index()]: the rows of the table reordered by index value. *)
Definition sort_index (w : Wide) : Wide :=
  let rows := sort_by fst (combine (index w) (cells w)) in
  {| index := map fst rows; columns := columns w; cells := map snd rows |}.

Definition map_step {A B : Type} (f : A -> B) (s : Step A) : Step B :=
  match s with
  | Next a => Next (f a)
  | Stop => Stop
  | Raise e => Raise e
  end.

Definition temp_wide (rows : list AggRow) : Step Wide :=
  map_step sort_index (pivot AVG_TEMP_C rows).

Definition hum_wide (rows : list AggRow) : Step Wide :=
  map_step sort_index (pivot AVG_HUMIDITY rows).

(** *** CSV export *)

(** What is left to pandas: how it prints a cell of a timestamp column
    (the format is chosen for the column as a whole: the time of day is
    left out when every value of the column is a midnight) and a numeric
    cell, and in which order [sort_values("TS_BUCKET")] puts the rows of a
    frame (pandas sorts with a fixed algorithm that need not keep rows with
    equal keys in their incoming order). *)
Record CellFormat : Type := mkCellFormat {
  show_ts : list Z -> Z -> string;
  show_num : float -> string;
  sort_rows : list AggRow -> list AggRow
}.

Definition quote_char : ascii := ascii_of_nat 34.
Definition comma_char : ascii := ascii_of_nat 44.
Definition LF : ascii := ascii_of_nat 10.

Fixpoint contains_char (c : ascii) (s : string) : bool :=
  match s with
  | EmptyString => false
  | String d t => Ascii.eqb c d || contains_char c t
  end.

Fixpoint double_quotes (s : string) : string :=
  match s with
  | EmptyString => EmptyString
  | String d t =>
      if Ascii.eqb d quote_char
      then String d (String d (double_quotes t))
      else String d (double_quotes t)
  end.

(** A field is quoted only when it holds the delimiter, a quote or the
    line terminator. *)
Definition csv_field (s : string) : string :=
  if contains_char comma_char s || contains_char quote_char s
     || contains_char LF s
  then String quote_char (double_quotes s ++ String quote_char EmptyString)
  else s.

Definition csv_line (fields : list string) : string :=
  (String.concat (String comma_char EmptyString) (map csv_field fields)
   ++ String LF EmptyString)%string.

Definition csv_header : list string :=
  ["TS_BUCKET"; "SITE"; "ROOM"; "AVG_TEMP_C"; "AVG_HUMIDITY"; "location"].

Definition csv_row (fmt : CellFormat) (column : list Z) (a : AggRow)
  : list string :=
  [show_ts fmt column (TS_BUCKET a); SITE a; ROOM a;
   show_num fmt (AVG_TEMP_C a); show_num fmt (AVG_HUMIDITY a); location a].

(** [df.to_csv(index=False).encode("utf-8")]; strings are byte strings. *)
Definition to_csv (fmt : CellFormat) (df : list AggRow) : string :=
  (csv_line csv_header
   ++ String.concat EmptyString
        (map (fun a => csv_line (csv_row fmt (map TS_BUCKET df) a)) df))%string.

(** *** The script as a state transformer *)

Inductive Widget : Type :=
| info (body : string)
| metric (label : string) (value : float) (decimals : nat)
| multiselect (label : string) (options default : list string)
| subheader (body : string)
| line_chart (data : Wide)
| download_button (label data file_name mime : string)
| button (label : string)
| dataframe (data : list AggRow).

(** What one session keeps: the widgets drawn so far in this run, and the
    memo table of [st.cache_data], which outlives the run. *)
Record Session : Type := mkSession {
  screen : list Widget;
  csv_cache : list (list AggRow * string)
}.

Definition Script (A : Type) : Type := Session -> Step A * Session.

Definition ret {A : Type} (a : A) : Script A := fun s => (Next a, s).

Definition bind {A B : Type} (m : Script A) (k : A -> Script B) : Script B :=
  fun s =>
    match m s with
    | (Next a, s') => k a s'
    | (Stop, s') => (Stop, s')
    | (Raise e, s') => (Raise e, s')
    end.

Notation "x <- m ;; k" := (bind m (fun x => k))
  (at level 61, m at next level, right associativity).
Notation "m ;; k" := (bind m (fun _ => k))
  (at level 61, right associativity).

(** Draw a widget below the ones already on the screen. *)
Definition draw (w : Widget) : Script unit :=
  fun s => (Next tt, {| screen := screen s ++ [w]; csv_cache := csv_cache s |}).

(** [st.stop()] *)
Definition stop {A : Type} : Script A := fun s => (Stop, s).

(** A pandas call that may raise. *)
Definition lift {A : Type} (r : Step A) : Script A := fun s => (r, s).

Definition when (b : bool) (m : Script unit) : Script unit :=
  if b then m else ret tt.

(** Are two numbers the same binary64 value? *)
Definition float_eqb (a b : float) : bool := PrimFloat.Leibniz.eqb a b.

Definition row_eqb (a b : AggRow) : bool :=
  (TS_BUCKET a =? TS_BUCKET b) && String.eqb (SITE a) (SITE b)
  && String.eqb (ROOM a) (ROOM b)
  && float_eqb (AVG_TEMP_C a) (AVG_TEMP_C b)
  && float_eqb (AVG_HUMIDITY a) (AVG_HUMIDITY b).

Fixpoint frame_eqb (x y : list AggRow) : bool :=
  match x, y with
  | [], [] => true
  | a :: x', b :: y' => row_eqb a b && frame_eqb x' y'
  | _, _ => false
  end.

Definition cache_lookup (df : list AggRow)
  (cache : list (list AggRow * string)) : option string :=
  option_map snd (find (fun e => frame_eqb (fst e) df) cache).

(** [@st.cache_data def convert_for_download(df)]: the bytes are computed
    on the first call with a given frame and replayed afterwards. *)
Definition convert_for_download (fmt : CellFormat) (df : list AggRow)
  : Script string :=
  fun s =>
    match cache_lookup df (csv_cache s) with
    | Some data => (Next data, s)
    | None =>
        let data := to_csv fmt df in
        (Next data,
         {| screen := screen s; csv_cache := (df, data) :: csv_cache s |})
    end.

(** The script from the emptiness guard to its last line; [sel_locs] is
    what the "Locations to plot" widget returns. *)
Definition present (fmt : CellFormat) (pdf : list AggRow)
  (sel_locs : list string) : Script unit :=
  when (frame_empty pdf)
    (draw (info "No data found for the selected filters.") ;; stop) ;;
  draw (metric "Avg Temp (°C)" (series_mean (map AVG_TEMP_C pdf)) 2) ;;
  draw (metric "Avg Humidity (%)" (series_mean (map AVG_HUMIDITY pdf)) 1) ;;
  draw (metric "Max Temp (°C)" (series_max (map AVG_TEMP_C pdf)) 2) ;;
  draw (metric "Min Temp (°C)" (series_min (map AVG_TEMP_C pdf)) 2) ;;
  draw (multiselect "Locations to plot" (locations pdf) (default_locations pdf)) ;;
  let df := plot_df pdf sel_locs in
  draw (subheader "Temperature Trend (by selected locations)") ;;
  when (negb (frame_empty df))
    (w <- lift (temp_wide df) ;; draw (line_chart w)) ;;
  draw (subheader "Humidity Trend (by selected locations)") ;;
  when (negb (frame_empty df))
    (w <- lift (hum_wide df) ;; draw (line_chart w)) ;;
  data <- convert_for_download fmt df ;;
  draw (download_button "Download CSV" data "data_aggregated.csv" "text/csv") ;;
  draw (button "A") ;;
  draw (dataframe (sort_rows fmt df)).

(** A rerun starts from an empty screen and keeps the memo table. *)
Definition rerun (s : Session) : Session :=
  {| screen := []; csv_cache := csv_cache s |}.

Definition fresh : Session := {| screen := []; csv_cache := [] |}.

(** One run of the script on one answer of the warehouse. *)
Definition run (fmt : CellFormat) (c : Criteria) (base_df : list Reading)
  (sel_locs : list string) (s : Session) (out : Step unit * Session) : Prop :=
  exists pdf, query_result c base_df pdf /\ out = present fmt pdf sel_locs (rerun s).

(** Reading the screen *)

Definition is_metric (w : Widget) : bool :=
  match w with metric _ _ _ => true | _ => false end.

Definition is_chart (w : Widget) : bool :=
  match w with line_chart _ => true | _ => false end.

Definition exported (w : Widget) : option string :=
  match w with download_button _ data _ _ => Some data | _ => None end.

Fixpoint exports (ws : list Widget) : list string :=
  match ws with
  | [] => []
  | w :: t =>
      match exported w with
      | Some d => d :: exports t
      | None => exports t
      end
  end.

(** ** The seeds of the date and time widgets *)

(** [Timestamp.to_pydatetime()]: a Python [datetime] counts microseconds,
    what is below is dropped. *)
Definition to_pydatetime (t : Z) : Z := t - t mod 1000.

(** What the script hands to [st.date_input]: the two dates shown and the
    dates allowed. *)
Record DateInput : Type := mkDateInput {
  value_start : Z;
  value_end : Z;
  min_value : Z;
  max_value : Z
}.

Definition date_input_seed (now : Z) (table : list Reading)
  : option DateInput :=
  match default_start now table, max_ts now table, min_ts now table with
  | Some ds, Some mx, Some mn =>
      Some {| value_start := Time.date_of ds;
              value_end := Time.date_of mx;
              min_value := Time.date_of mn;
              max_value := Time.date_of mx |}
  | _, _, _ => None
  end.

(** [default_start.to_pydatetime().time()], [max_ts.to_pydatetime().time()] *)
Definition start_time_seed (now : Z) (table : list Reading) : option Z :=
  option_map (fun t => Time.time_of (to_pydatetime t)) (default_start now table).

Definition end_time_seed (now : Z) (table : list Reading) : option Z :=
  option_map (fun t => Time.time_of (to_pydatetime t)) (max_ts now table).

(** The whole sample day, site A only. *)
Definition site_A_only : Criteria :=
  {| start_date := 19723; end_date := 19723;
     start_time := 0; end_time := Time.ns_per_day - 1;
     granularity := hour; sel_sites := ["A"]; sel_rooms := [] |}.

(** ** Notions used in the statements *)


(** The pairs that must not repeat for a reshape. *)
Definition cell_keys (rows : list AggRow) : list (Z * string) :=
  map (fun a => (TS_BUCKET a, location a)) rows.

(** Within one bucket, rows with one label have one site and one room. *)
Definition label_injective (rows : list AggRow) : Prop :=
  forall a b,
    In a rows -> In b rows ->
    TS_BUCKET a = TS_BUCKET b -> location a = location b ->
    SITE a = SITE b /\ ROOM a = ROOM b.

(** The order "by bucket timestamp, then site, then room". *)
Definition row_lex_le (a b : AggRow) : Prop :=
  TS_BUCKET a < TS_BUCKET b \/
  TS_BUCKET a = TS_BUCKET b /\
  (String.ltb (SITE a) (SITE b) = true \/
   SITE a = SITE b /\ String.leb (ROOM a) (ROOM b) = true).

(** Every entry of the memo table holds the export of its frame. *)
Definition cache_sound (fmt : CellFormat)
  (cache : list (list AggRow * string)) : Prop :=
  Forall (fun e => snd e = to_csv fmt (fst e)) cache.

(** ** Sample data *)

Module Sample.

(** 2024-01-01 as a day count, and clock times on that day. *)
Definition d0 : Z := 19723.
Definition at_clock (hh mm : Z) : Z :=
  Time.combine d0 (hh * Time.ns_per_hour + mm * Time.ns_per_minute).

Definition r0800 : Reading := mkReading (at_clock 8 0) "A" "101" "s1" 20 50.
Definition r0830 : Reading := mkReading (at_clock 8 30) "A" "101" "s1" 22 52.

(** A second site reporting in the same hour, scanned first. *)
Definition rB : Reading := mkReading (at_clock 8 10) "B" "101" "s2" 21 51.

(** The whole day, every site and room. *)
Definition whole_day (g : Granularity) : Criteria :=
  {| start_date := d0; end_date := d0;
     start_time := 0; end_time := Time.ns_per_day - 1;
     granularity := g; sel_sites := []; sel_rooms := [] |}.

(** An inverted range: the end lies before the start. *)
Definition inverted : Criteria :=
  {| start_date := d0 + 1; end_date := d0;
     start_time := 0; end_time := 0;
     granularity := hour; sel_sites := ["A"]; sel_rooms := [] |}.

Definition rowA : AggRow := mkAggRow (at_clock 8 0) "A" "101" 21 51.
Definition rowB : AggRow := mkAggRow (at_clock 8 0) "B" "101" 21 51.

(** Two different (site, room) pairs with one label. *)
Definition clash1 : AggRow := mkAggRow (at_clock 8 0) "A / B" "C" 20 50.
Definition clash2 : AggRow := mkAggRow (at_clock 8 0) "A" "B / C" 22 52.

(** Location X reports in both hours, location Y only at nine. *)
Definition x8 : AggRow := mkAggRow (at_clock 8 0) "X" "1" 20 50.
Definition x9 : AggRow := mkAggRow (at_clock 9 0) "X" "1" 21 51.
Definition y9 : AggRow := mkAggRow (at_clock 9 0) "Y" "1" 0 0.

Definition plain : CellFormat :=
  {| show_ts := fun _ _ => "t"; show_num := fun _ => "n";
     sort_rows := sort_by TS_BUCKET |}.

End Sample.

(** * Properties *)

(** ** Lists: distinct values, duplicates, sorting *)

Section ListFacts.

Context {A : Type}.

Section Equality.

Variable eqb : A -> A -> bool.
Hypothesis eqb_spec : forall x y, eqb x y = true <-> x = y.

Lemma eqb_refl_of x : eqb x x = true.
Proof. now apply eqb_spec. Qed.

Lemma existsb_eqb_In x l : existsb (eqb x) l = true <-> In x l.
Proof.
  rewrite existsb_exists. split.
  - intros (y & Hy & E). apply eqb_spec in E. now subst.
  - intros H. exists x. split; [assumption | apply eqb_refl_of].
Qed.

Lemma unique_In x l : In x (unique eqb l) <-> In x l.
Proof.
  induction l as [|a l IH]; simpl; [tauto|].
  rewrite filter_In, IH.
  split.
  - intros [E | [H _]]; auto.
  - intros [E | H]; [now left|].
    destruct (eqb a x) eqn:Eax.
    + left. now apply eqb_spec.
    + right. now split.
Qed.

Lemma unique_NoDup l : NoDup (unique eqb l).
Proof.
  induction l as [|a l IH]; simpl; constructor.
  - rewrite filter_In. intros [_ H].
    now rewrite eqb_refl_of in H.
  - now apply NoDup_filter.
Qed.

Lemma has_duplicates_false l : has_duplicates eqb l = false <-> NoDup l.
Proof.
  induction l as [|a l IH]; simpl.
  - split; [constructor | reflexivity].
  - rewrite orb_false_iff, IH. split.
    + intros [H1 H2]. constructor; [|assumption].
      intros Hin. apply existsb_eqb_In in Hin. congruence.
    + intros H. inversion H as [|? ? Hn Hd]; subst. split; [|assumption].
      destruct (existsb (eqb a) l) eqn:E; [|reflexivity].
      apply existsb_eqb_In in E. contradiction.
Qed.

Lemma has_duplicates_true l :
  has_duplicates eqb l = true <-> ~ NoDup l.
Proof.
  rewrite <- has_duplicates_false.
  destruct (has_duplicates eqb l); split; intros; congruence.
Qed.

End Equality.

Section Order.

Variable leb : A -> A -> bool.

Lemma insert_sorted_perm x l : Permutation (x :: l) (insert_sorted leb x l).
Proof.
  induction l as [|y l IH]; simpl; [reflexivity|].
  destruct (leb x y); [reflexivity|].
  rewrite perm_swap. now constructor.
Qed.

Lemma sort_with_perm l : Permutation l (sort_with leb l).
Proof.
  induction l as [|x l IH]; simpl; [constructor|].
  rewrite <- insert_sorted_perm. now constructor.
Qed.

Lemma sort_with_In x l : In x (sort_with leb l) <-> In x l.
Proof.
  split; apply Permutation_in;
    [symmetry|]; apply sort_with_perm.
Qed.

Lemma sort_with_NoDup l : NoDup l -> NoDup (sort_with leb l).
Proof. apply Permutation_NoDup, sort_with_perm. Qed.

Lemma sort_with_length l : List.length (sort_with leb l) = List.length l.
Proof. symmetry. apply Permutation_length, sort_with_perm. Qed.

Hypothesis leb_total : forall x y, leb x y = true \/ leb y x = true.

Lemma insert_sorted_Sorted x l :
  Sorted (fun a b => leb a b = true) l ->
  Sorted (fun a b => leb a b = true) (insert_sorted leb x l).
Proof.
  induction 1 as [|y l Hs IH Hh]; simpl.
  - repeat constructor.
  - destruct (leb x y) eqn:E.
    + repeat constructor; assumption.
    + constructor; [assumption|].
      destruct (leb_total x y) as [F|F]; [congruence|].
      destruct Hh as [|z l Hyz]; simpl.
      * now constructor.
      * destruct (leb x z); now constructor.
Qed.

Lemma sort_with_Sorted l : Sorted (fun a b => leb a b = true) (sort_with leb l).
Proof.
  induction l as [|x l IH]; simpl; [constructor|].
  now apply insert_sorted_Sorted.
Qed.

End Order.

Lemma sort_with_fixed (leb : A -> A -> bool) l :
  Sorted (fun a b => leb a b = true) l -> sort_with leb l = l.
Proof.
  induction 1 as [|x l Hs IH Hh]; simpl; [reflexivity|].
  rewrite IH. destruct Hh as [|y l Hxy]; simpl; [reflexivity|].
  now rewrite Hxy.
Qed.

Section Keyed.

Variable key : A -> Z.

Lemma sort_by_ascending l : ascending_by key (sort_by key l).
Proof.
  unfold ascending_by, sort_by.
  apply Sorted_StronglySorted.
  - intros a b c. lia.
  - eapply Sorted_ind with
      (P := fun l => Sorted (fun a b => key a <= key b) l);
      [constructor | |
       apply (sort_with_Sorted (fun a b => key a <=? key b));
       intros x y; rewrite !Z.leb_le; lia].
    intros a l0 _ IH Hh. constructor; [assumption|].
    destruct Hh as [|b l1 Hab]; constructor. now apply Z.leb_le.
Qed.

(** Every list has a sorted answer: the relation is never empty. *)
Lemma sort_by_sorted_by l : sorted_by key l (sort_by key l).
Proof.
  split; [apply sort_with_perm | apply sort_by_ascending].
Qed.

Lemma sort_by_fixed l : ascending_by key l -> sort_by key l = l.
Proof.
  intros H. apply sort_with_fixed.
  apply StronglySorted_Sorted in H.
  induction H as [|a l0 _ IH Hh]; constructor; [assumption|].
  destruct Hh as [|b l1 Hab]; constructor. now apply Z.leb_le.
Qed.

Lemma ascending_filter (f : A -> bool) l :
  ascending_by key l -> ascending_by key (filter f l).
Proof.
  unfold ascending_by. induction 1 as [|a l Hs IH Hall]; simpl.
  - constructor.
  - destruct (f a); [|assumption].
    constructor; [assumption|].
    rewrite Forall_forall in *. intros x Hx.
    apply filter_In in Hx. now apply Hall.
Qed.

(** Two ascending arrangements of the same rows agree when no key occurs
    twice. *)
Lemma ascending_unique l1 l2 :
  NoDup (map key l1) ->
  Permutation l1 l2 -> ascending_by key l1 -> ascending_by key l2 -> l1 = l2.
Proof.
  revert l2. induction l1 as [|a l1 IH]; intros l2 Hnd Hp H1 H2.
  - now apply Permutation_nil in Hp.
  - destruct l2 as [|b l2].
    { symmetry in Hp. now apply Permutation_nil in Hp. }
    inversion H1 as [|? ? Hs1 Ha]; subst.
    inversion H2 as [|? ? Hs2 Hb]; subst.
    inversion Hnd as [|? ? Hna Hnd']; subst.
    rewrite Forall_forall in Ha, Hb.
    assert (Eab : a = b).
    { assert (Ina : In a (b :: l2)) by (eapply Permutation_in; [exact Hp | now left]).
      assert (Inb : In b (a :: l1))
        by (eapply Permutation_in; [symmetry; exact Hp | now left]).
      destruct Ina as [E|Ina]; [now symmetry|].
      destruct Inb as [E|Inb]; [assumption|].
      pose proof (Hb _ Ina). pose proof (Ha _ Inb).
      exfalso. apply Hna.
      replace (key a) with (key b) by lia.
      now apply in_map. }
    subst b. f_equal.
    apply IH; try assumption.
    now apply Permutation_cons_inv in Hp.
Qed.

End Keyed.

End ListFacts.

(** ** Bucketing *)

Lemma unit_of_pos (g : Granularity) : 0 < unit_of g.
Proof. destruct g; reflexivity. Qed.

Lemma DATE_TRUNC_le (g : Granularity) (t : Z) : DATE_TRUNC g t <= t.
Proof.
  unfold DATE_TRUNC.
  pose proof (Z.mod_pos_bound t (unit_of g) (unit_of_pos g)). lia.
Qed.

Lemma DATE_TRUNC_mul (g : Granularity) (t : Z) :
  DATE_TRUNC g t = unit_of g * (t / unit_of g).
Proof.
  unfold DATE_TRUNC.
  pose proof (unit_of_pos g).
  rewrite Z.mod_eq by lia. lia.
Qed.

Lemma DATE_TRUNC_aligned (g : Granularity) (t : Z) : aligned g (DATE_TRUNC g t).
Proof.
  unfold aligned. rewrite DATE_TRUNC_mul, Z.mul_comm.
  apply Z.mod_mul. pose proof (unit_of_pos g). lia.
Qed.

Lemma DATE_TRUNC_fix (g : Granularity) (t : Z) :
  aligned g t -> DATE_TRUNC g t = t.
Proof. unfold aligned, DATE_TRUNC. intros ->. lia. Qed.

Lemma DATE_TRUNC_next (g : Granularity) (t : Z) : t < DATE_TRUNC g t + unit_of g.
Proof.
  unfold DATE_TRUNC.
  pose proof (Z.mod_pos_bound t (unit_of g) (unit_of_pos g)). lia.
Qed.

Lemma aligned_le_DATE_TRUNC (g : Granularity) (t b : Z) :
  aligned g b -> b <= t -> b <= DATE_TRUNC g t.
Proof.
  unfold aligned. intros Hb Hle.
  pose proof (unit_of_pos g) as Hu.
  rewrite DATE_TRUNC_mul.
  assert (Eb : b = unit_of g * (b / unit_of g)).
  { pose proof (Z.div_mod b (unit_of g)). lia. }
  rewrite Eb.
  apply Z.mul_le_mono_nonneg_l; [lia|].
  apply Z.div_le_mono; lia.
Qed.

Lemma DATE_TRUNC_day_calendar (t : Z) :
  Time.date_of (DATE_TRUNC day t) = Time.date_of t /\
  Time.time_of (DATE_TRUNC day t) = 0.
Proof.
  unfold Time.date_of, Time.time_of.
  pose proof (DATE_TRUNC_aligned day t) as Ha. unfold aligned in Ha.
  simpl unit_of in Ha. split; [|exact Ha].
  rewrite DATE_TRUNC_mul. simpl unit_of.
  rewrite Z.mul_comm. apply Z.div_mul. discriminate.
Qed.

(** C6: for each granularity and each timestamp, the bucket is not after
    the timestamp, re-bucketing a bucket leaves it unchanged, and the bucket
    is the largest aligned instant not after the timestamp (aligned, above
    every other aligned instant that is not after the timestamp, and less
    than one unit before it); at granularity [day] the bucket is midnight of
    the timestamp's own calendar day. *)
Theorem C6_bucket_floor :
  forall (g : Granularity) (t : Z),
    DATE_TRUNC g t <= t /\
    DATE_TRUNC g (DATE_TRUNC g t) = DATE_TRUNC g t /\
    aligned g (DATE_TRUNC g t) /\
    (forall b, aligned g b -> b <= t -> b <= DATE_TRUNC g t) /\
    t < DATE_TRUNC g t + unit_of g /\
    Time.date_of (DATE_TRUNC day t) = Time.date_of t /\
    Time.time_of (DATE_TRUNC day t) = 0.
Proof.
  intros g t.
  split; [apply DATE_TRUNC_le|].
  split; [apply DATE_TRUNC_fix, DATE_TRUNC_aligned|].
  split; [apply DATE_TRUNC_aligned|].
  split; [intros b; apply aligned_le_DATE_TRUNC|].
  split; [apply DATE_TRUNC_next|].
  apply DATE_TRUNC_day_calendar.
Qed.

Lemma C6_bucket_floor_witness :
  Sample.at_clock 8 0 <= DATE_TRUNC hour (Sample.at_clock 8 30).
Proof.
  destruct (C6_bucket_floor hour (Sample.at_clock 8 30))
    as (_ & _ & _ & H & _).
  apply (H (Sample.at_clock 8 0)).
  - reflexivity.
  - now apply Z.leb_le.
Defined.

(** ** Date range bounds *)

Lemma select_min_max_one_row (table : list Reading) :
  frame_empty (select_min_max table) = false.
Proof. reflexivity. Qed.

(** The emptiness test of the sidebar never sends the script to its
    fallback branch, whatever the table and the clock. *)
Lemma bounds_from_query (now : Z) (table : list Reading) :
  min_ts now table = Zmin_list (map ts table) /\
  max_ts now table = Zmax_list (map ts table).
Proof. split; reflexivity. Qed.

(** C7: on an empty table the script keeps the two NULL cells of the query
    answer as [min_ts] and [max_ts] (missing timestamps), and the default
    start derived from them is missing too; the window of the fallback
    branch is not what it gets. *)
Theorem C7_empty_table_bounds_missing :
  forall now : Z,
    (min_ts now [], max_ts now []) = (None, None) /\
    default_start now [] = None /\
    (min_ts now [], max_ts now []) <> fallback_window now.
Proof.
  intros now. repeat split. discriminate.
Qed.

(** ** Filter *)

Lemma isin_In (s : string) (l : list string) : isin s l = true <-> In s l.
Proof. apply existsb_eqb_In, String.eqb_eq. Qed.

Lemma in_range_spec (c : Criteria) (r : Reading) :
  in_range c r = true <-> start_dt c <= ts r <= end_dt c.
Proof.
  unfold in_range. rewrite andb_true_iff, !Z.leb_le. tauto.
Qed.

Lemma filter_isin_In (column : Reading -> string) (sel : list string)
  (df : list Reading) (r : Reading) :
  In r (filter_isin column sel df) <->
  In r df /\ (sel = [] \/ In (column r) sel).
Proof.
  destruct sel as [|s sel]; simpl.
  - intuition.
  - rewrite filter_In, (isin_In (column r) (s :: sel)). simpl.
    intuition discriminate.
Qed.

Lemma filter_isin_filter (column : Reading -> string) (sel : list string)
  (df : list Reading) :
  filter_isin column sel df =
  filter (fun r => frame_empty sel || isin (column r) sel) df.
Proof.
  destruct sel as [|s sel]; simpl; [|reflexivity].
  induction df as [|r df IH]; simpl; congruence.
Qed.

Lemma filter_filter {A : Type} (f g : A -> bool) (l : list A) :
  filter g (filter f l) = filter (fun x => f x && g x) l.
Proof.
  induction l as [|x l IH]; simpl; [reflexivity|].
  destruct (f x); simpl; [destruct (g x)|]; congruence.
Qed.

Lemma filtered_passes (c : Criteria) (base_df : list Reading) :
  filtered c base_df = filter (passes c) base_df.
Proof.
  unfold filtered, passes.
  rewrite !filter_isin_filter, !filter_filter.
  apply filter_ext. intros r. now rewrite andb_assoc.
Qed.

(** C1: a reading of the table is kept by the composed filter exactly when
    its timestamp lies in the closed range from [start_dt] to [end_dt], its
    site is selected or no site is selected, and its room is selected or no
    room is selected; the kept readings stay in table order; with no site
    and no room selected the filter is the range condition alone. *)
Theorem C1_filter_predicate :
  forall (c : Criteria) (base_df : list Reading),
    (forall r,
        In r (filtered c base_df) <->
        In r base_df /\
        start_dt c <= ts r <= end_dt c /\
        (sel_sites c = [] \/ In (site r) (sel_sites c)) /\
        (sel_rooms c = [] \/ In (room r) (sel_rooms c))) /\
    filtered c base_df = filter (passes c) base_df /\
    (forall r,
        passes c r = true <->
        start_dt c <= ts r <= end_dt c /\
        (sel_sites c = [] \/ In (site r) (sel_sites c)) /\
        (sel_rooms c = [] \/ In (room r) (sel_rooms c))) /\
    (sel_sites c = [] -> sel_rooms c = [] ->
     filtered c base_df = filter (in_range c) base_df /\
     forall r, passes c r = in_range c r).
Proof.
  intros c base_df.
  assert (P : forall r,
             passes c r = true <->
             start_dt c <= ts r <= end_dt c /\
             (sel_sites c = [] \/ In (site r) (sel_sites c)) /\
             (sel_rooms c = [] \/ In (room r) (sel_rooms c))).
  { intros r. unfold passes.
    rewrite !andb_true_iff, !orb_true_iff, in_range_spec, !isin_In.
    assert (E : forall l : list string, frame_empty l = true <-> l = [])
      by (intros [|? ?]; simpl; split; congruence).
    rewrite !E. tauto. }
  split; [|split; [apply filtered_passes | split; [exact P|]]].
  - intros r. rewrite filtered_passes, filter_In, P. tauto.
  - intros Hs Hr. unfold filtered, passes. rewrite Hs, Hr. simpl.
    split; [reflexivity|].
    intros r. now rewrite !andb_true_r.
Qed.

Lemma C1_filter_predicate_witness :
  filtered (Sample.whole_day hour) [Sample.r0800; Sample.rB] =
  filter (in_range (Sample.whole_day hour)) [Sample.r0800; Sample.rB].
Proof.
  destruct (C1_filter_predicate (Sample.whole_day hour)
              [Sample.r0800; Sample.rB]) as (_ & _ & _ & H).
  apply H; reflexivity.
Defined.

(** ** Aggregation *)

Lemma key_eqb_spec (k1 k2 : GroupKey) : key_eqb k1 k2 = true <-> k1 = k2.
Proof.
  destruct k1 as [[b1 s1] r1], k2 as [[b2 s2] r2]. simpl.
  rewrite !andb_true_iff, Z.eqb_eq, !String.eqb_eq.
  split.
  - intros [[-> ->] ->]. reflexivity.
  - intros E. injection E as -> -> ->. auto.
Qed.

Lemma row_key_agg_row (g : Granularity) (df : list Reading) (k : GroupKey) :
  row_key (agg_row g df k) = k.
Proof. now destruct k as [[b s] r]. Qed.

Lemma df_buck_keys (g : Granularity) (df : list Reading) :
  map row_key (df_buck g df) = unique key_eqb (map (key_of g) df).
Proof.
  unfold df_buck. rewrite map_map.
  erewrite map_ext; [apply map_id|].
  intros k. apply row_key_agg_row.
Qed.

Lemma members_In (g : Granularity) (k : GroupKey) (df : list Reading)
  (r : Reading) :
  In r (members g k df) <-> In r df /\ key_of g r = k.
Proof.
  unfold members. rewrite filter_In, key_eqb_spec.
  intuition congruence.
Qed.

Lemma df_buck_In (g : Granularity) (df : list Reading) (a : AggRow) :
  In a (df_buck g df) <->
  (exists r, In r df /\ key_of g r = row_key a) /\
  a = agg_row g df (row_key a).
Proof.
  unfold df_buck. rewrite in_map_iff. split.
  - intros (k & <- & Hk). rewrite row_key_agg_row.
    split; [|reflexivity].
    apply -> (unique_In key_eqb key_eqb_spec) in Hk.
    apply in_map_iff in Hk. destruct Hk as (r & E & Hr). eauto.
  - intros [(r & Hr & E) Ha]. exists (row_key a). split; [now symmetry|].
    apply (unique_In key_eqb key_eqb_spec).
    rewrite <- E. now apply in_map.
Qed.

Lemma members_explicit (g : Granularity) (a : AggRow) (df : list Reading) :
  members g (TS_BUCKET a, SITE a, ROOM a) df =
  filter (fun r => (TS_BUCKET a =? DATE_TRUNC g (ts r))
                   && String.eqb (SITE a) (site r)
                   && String.eqb (ROOM a) (room r)) df.
Proof. reflexivity. Qed.

(** C2: the aggregation emits one row per distinct (bucket, site, room)
    group of the filtered readings, the bucket being the timestamp
    truncated to the granularity: no group twice, every group of a reading
    once, no other group.  The members of a row's group are the readings
    with the row's bucket, site and room, at least one, and the row carries
    their mean temperature and mean humidity: the sum of the members'
    values divided by their number, in binary64.  Two readings at 08:00
    and 08:30 for site A, room 101 with 20.0/22.0 degrees and 50/52 percent
    give at granularity [hour] the single row (08:00, A, 101, 21.0,
    51.0). *)
Theorem C2_one_row_per_group :
  forall (g : Granularity) (df : list Reading),
    NoDup (map row_key (df_buck g df)) /\
    (forall b s rm,
        In (b, s, rm) (map row_key (df_buck g df)) <->
        exists r, In r df /\ DATE_TRUNC g (ts r) = b /\ site r = s /\
                  room r = rm) /\
    (forall a,
        In a (df_buck g df) ->
        let m := filter (fun r => (TS_BUCKET a =? DATE_TRUNC g (ts r))
                                  && String.eqb (SITE a) (site r)
                                  && String.eqb (ROOM a) (room r)) df in
        m <> [] /\
        (forall r, In r m <->
                   In r df /\ DATE_TRUNC g (ts r) = TS_BUCKET a /\
                   site r = SITE a /\ room r = ROOM a) /\
        AVG_TEMP_C a =
        PrimFloat.div (fsum (map temp_c m)) (count_of (List.length m)) /\
        AVG_HUMIDITY a =
        PrimFloat.div (fsum (map humidity m)) (count_of (List.length m))) /\
    df_buck hour [Sample.r0800; Sample.r0830] =
    [mkAggRow (Sample.at_clock 8 0) "A" "101" 21 51].
Proof.
  intros g df. split; [|split; [|split]].
  - rewrite df_buck_keys. apply unique_NoDup, key_eqb_spec.
  - intros b s rm.
    rewrite df_buck_keys, (unique_In key_eqb key_eqb_spec), in_map_iff.
    unfold key_of. split.
    + intros (r & E & Hr). injection E as <- <- <-. eauto.
    + intros (r & Hr & <- & <- & <-). eauto.
  - intros a Ha m. apply df_buck_In in Ha.
    destruct Ha as [(r & Hr & E) Ha].
    assert (Em : m = members g (row_key a) df) by reflexivity.
    assert (Hm : forall r', In r' m <->
                            In r' df /\ DATE_TRUNC g (ts r') = TS_BUCKET a /\
                            site r' = SITE a /\ room r' = ROOM a).
    { intros r'. rewrite Em, members_In. unfold key_of, row_key.
      split.
      - intros [H1 H2]. injection H2 as <- <- <-. auto.
      - intros (H1 & <- & <- & <-). auto. }
    split; [|split; [exact Hm|]].
    + intros E0.
      assert (Hin : In r m).
      { apply Hm. injection E as <- <- <-. auto. }
      rewrite E0 in Hin. contradiction.
    + assert (Et : AVG_TEMP_C a = AVG (map temp_c (members g (row_key a) df)))
        by (rewrite Ha at 1; reflexivity).
      assert (Eh : AVG_HUMIDITY a =
                   AVG (map humidity (members g (row_key a) df)))
        by (rewrite Ha at 1; reflexivity).
      unfold AVG in Et, Eh. rewrite length_map in Et, Eh.
      rewrite Em. split; assumption.
  - reflexivity.
Qed.

Lemma C2_one_row_per_group_witness :
  AVG_TEMP_C (mkAggRow (Sample.at_clock 8 0) "A" "101" 21 51) =
  PrimFloat.div (fsum (map temp_c [Sample.r0800; Sample.r0830])) (count_of 2).
Proof.
  destruct (C2_one_row_per_group hour [Sample.r0800; Sample.r0830])
    as (_ & _ & H & _).
  destruct (H (mkAggRow (Sample.at_clock 8 0) "A" "101" 21 51))
    as (_ & _ & E & _).
  - left. reflexivity.
  - exact E.
Defined.

(** ** Summary figures *)



(** ** The script *)

Ltac step_script :=
  unfold present, bind, when, draw, lift, ret, stop, convert_for_download;
  simpl.

Lemma present_empty (fmt : CellFormat) (sel_locs : list string) (s : Session) :
  present fmt [] sel_locs s =
  (Stop,
   {| screen := screen s ++ [info "No data found for the selected filters."];
      csv_cache := csv_cache s |}).
Proof. reflexivity. Qed.




(** ** No data *)

Lemma sorted_by_nil {A : Type} (key : A -> Z) (out : list A) :
  sorted_by key [] out -> out = [].
Proof. intros [Hp _]. now apply Permutation_nil. Qed.

Lemma query_result_exists (c : Criteria) (base_df : list Reading) :
  exists pdf, query_result c base_df pdf.
Proof. eexists. apply sort_by_sorted_by. Qed.

Lemma run_exists (fmt : CellFormat) (c : Criteria) (base_df : list Reading)
  (sel_locs : list string) (s : Session) :
  exists out, run fmt c base_df sel_locs s out.
Proof.
  destruct (query_result_exists c base_df) as [pdf H].
  eexists. exists pdf. split; [exact H | reflexivity].
Qed.

Lemma inverted_range_filters_all (c : Criteria) (base_df : list Reading) :
  end_dt c < start_dt c -> filtered c base_df = [].
Proof.
  intros Hinv. rewrite filtered_passes.
  induction base_df as [|r df IH]; simpl; [reflexivity|].
  rewrite IH. unfold passes, in_range.
  destruct (start_dt c <=? ts r) eqn:E1; simpl; [|reflexivity].
  destruct (ts r <=? end_dt c) eqn:E2; simpl; [|reflexivity].
  apply Z.leb_le in E1, E2. lia.
Qed.

(** C4: when filtering and aggregation leave no row, in particular when the
    range is inverted, every run of the script draws the "no data" notice
    and stops there: the run ends in [Stop], the notice is the only widget
    on the screen, so no figure and no chart is drawn, and the memo table
    of the export is untouched.  A run always exists. *)
Theorem C4_no_data_short_circuit :
  forall (fmt : CellFormat) (c : Criteria) (base_df : list Reading)
         (sel_locs : list string) (s : Session),
    (exists out, run fmt c base_df sel_locs s out) /\
    forall out,
      run fmt c base_df sel_locs s out ->
      df_buck (granularity c) (filtered c base_df) = [] \/
      end_dt c < start_dt c ->
      out = (Stop,
             {| screen := [info "No data found for the selected filters."];
                csv_cache := csv_cache s |}) /\
      filter is_metric (screen (snd out)) = [] /\
      filter is_chart (screen (snd out)) = [] /\
      exports (screen (snd out)) = [].
Proof.
  intros fmt c base_df sel_locs s.
  split; [apply run_exists|].
  intros out (pdf & Hq & ->) Hempty.
  assert (E : df_buck (granularity c) (filtered c base_df) = []).
  { destruct Hempty as [E|Hinv]; [assumption|].
    now rewrite inverted_range_filters_all. }
  unfold query_result in Hq. rewrite E in Hq.
  apply sorted_by_nil in Hq. subst pdf.
  rewrite present_empty. simpl. repeat split.
Qed.

Lemma C4_no_data_short_circuit_witness :
  present Sample.plain
    (sort_by TS_BUCKET
       (df_buck (granularity Sample.inverted)
          (filtered Sample.inverted [Sample.r0800; Sample.r0830])))
    ["A / 101"] (rerun fresh) =
  (Stop,
   {| screen := [info "No data found for the selected filters."];
      csv_cache := [] |}).
Proof.
  destruct (C4_no_data_short_circuit Sample.plain Sample.inverted
              [Sample.r0800; Sample.r0830] ["A / 101"] fresh) as [_ H].
  apply H.
  - eexists. split; [apply sort_by_sorted_by | reflexivity].
  - right. reflexivity.
Defined.

(** ** Wide tables *)

Lemma pair_eqb_spec (p q : Z * string) : pair_eqb p q = true <-> p = q.
Proof.
  destruct p as [b l], q as [b' l']. unfold pair_eqb. simpl.
  rewrite andb_true_iff, Z.eqb_eq, String.eqb_eq.
  split; [intros [-> ->] | intros E; injection E as -> ->]; auto.
Qed.

Lemma at_cell_spec (b : Z) (l : string) (a : AggRow) :
  at_cell b l a = true <-> TS_BUCKET a = b /\ location a = l.
Proof.
  unfold at_cell. rewrite pair_eqb_spec.
  split; [intros E; injection E as -> -> | intros [-> ->]]; auto.
Qed.

Lemma NoDup_map_eq {A B : Type} (f : A -> B) (l : list A) (x y : A) :
  NoDup (map f l) -> In x l -> In y l -> f x = f y -> x = y.
Proof.
  induction l as [|a l IH]; simpl; [contradiction|].
  intros Hnd Hx Hy E. inversion Hnd as [|? ? Hn Hd]; subst.
  destruct Hx as [-> | Hx], Hy as [-> | Hy]; auto.
  - exfalso. apply Hn. rewrite E. now apply in_map.
  - exfalso. apply Hn. rewrite <- E. now apply in_map.
Qed.

Lemma pivot_Next_iff (values : AggRow -> float) (rows : list AggRow) :
  (exists w, pivot values rows = Next w) <-> NoDup (cell_keys rows).
Proof.
  unfold pivot. fold (cell_keys rows).
  rewrite <- (has_duplicates_false pair_eqb pair_eqb_spec).
  destruct (has_duplicates pair_eqb (cell_keys rows)); split.
  - intros [w H]. discriminate.
  - discriminate.
  - reflexivity.
  - eauto.
Qed.

Lemma pivot_Raise_iff (values : AggRow -> float) (rows : list AggRow) :
  pivot values rows = Raise "Index contains duplicate entries, cannot reshape"
  <-> ~ NoDup (cell_keys rows).
Proof.
  unfold pivot. fold (cell_keys rows).
  rewrite <- (has_duplicates_true pair_eqb pair_eqb_spec).
  destruct (has_duplicates pair_eqb (cell_keys rows)); split;
    try reflexivity; discriminate.
Qed.

Lemma cell_value_Some (values : AggRow -> float) (rows : list AggRow)
  (b : Z) (l : string) (v : float) :
  NoDup (cell_keys rows) ->
  cell_value values rows b l = Some v <->
  exists a, In a rows /\ TS_BUCKET a = b /\ location a = l /\ values a = v.
Proof.
  intros Hnd. unfold cell_value. split.
  - destruct (find (at_cell b l) rows) as [a|] eqn:E; simpl; [|discriminate].
    intros Hv. injection Hv as <-.
    apply find_some in E. destruct E as [Hin Hc].
    apply at_cell_spec in Hc. exists a. tauto.
  - intros (a & Hin & Hb & Hl & Hv).
    destruct (find (at_cell b l) rows) as [a'|] eqn:E; simpl.
    + apply find_some in E. destruct E as [Hin' Hc].
      apply at_cell_spec in Hc. destruct Hc as [Hb' Hl'].
      assert (a' = a).
      { apply (NoDup_map_eq (fun a => (TS_BUCKET a, location a)) rows);
          try assumption. congruence. }
      congruence.
    + exfalso. pose proof (find_none _ _ E a Hin) as Hc.
      assert (at_cell b l a = true) by now apply at_cell_spec.
      congruence.
Qed.

Lemma cell_value_None (values : AggRow -> float) (rows : list AggRow)
  (b : Z) (l : string) :
  cell_value values rows b l = None <->
  forall a, In a rows -> ~ (TS_BUCKET a = b /\ location a = l).
Proof.
  unfold cell_value. split.
  - destruct (find (at_cell b l) rows) as [a|] eqn:E; simpl; [discriminate|].
    intros _ a Hin Hc. apply at_cell_spec in Hc.
    pose proof (find_none _ _ E a Hin). congruence.
  - intros H. destruct (find (at_cell b l) rows) as [a|] eqn:E; simpl;
      [|reflexivity].
    apply find_some in E. destruct E as [Hin Hc].
    apply at_cell_spec in Hc. now apply H in Hc.
Qed.

Lemma Z_leb_total (x y : Z) : (x <=? y) = true \/ (y <=? x) = true.
Proof. rewrite !Z.leb_le. lia. Qed.

Lemma sorted_index_strict (l : list Z) :
  StronglySorted Z.lt (sort_with Z.leb (unique Z.eqb l)).
Proof.
  assert (Hs : Sorted (fun a b => (a <=? b) = true)
                 (sort_with Z.leb (unique Z.eqb l)))
    by apply sort_with_Sorted, Z_leb_total.
  assert (Hnd : NoDup (sort_with Z.leb (unique Z.eqb l)))
    by apply sort_with_NoDup, unique_NoDup, Z.eqb_eq.
  revert Hs Hnd. generalize (sort_with Z.leb (unique Z.eqb l)) as idx.
  intros idx Hs Hnd. apply Sorted_StronglySorted; [intros a b c; lia|].
  induction Hs as [|a idx Hs IH Hh]; constructor.
  - apply IH. now inversion Hnd.
  - destruct Hh as [|b idx' Hab]; constructor.
    apply Z.leb_le in Hab.
    inversion Hnd as [|? ? Hn _]; subst.
    assert (a <> b) by (intros ->; apply Hn; now left).
    lia.
Qed.

Lemma combine_ascending {B : Type} (idx : list Z) (rows : list B) :
  StronglySorted Z.lt idx -> ascending_by fst (combine idx rows).
Proof.
  unfold ascending_by. intros H. revert rows.
  induction H as [|b idx Hs IH Hall]; intros rows; simpl; [constructor|].
  destruct rows as [|r rows]; [constructor|].
  constructor; [apply IH|].
  rewrite Forall_forall in *. intros [b' r'] Hin. simpl.
  apply in_combine_l in Hin. apply Hall in Hin. lia.
Qed.

Lemma map_fst_combine_same {B C : Type} (l : list B) (l' : list C) :
  List.length l = List.length l' ->
  map fst (combine l l') = l /\ map snd (combine l l') = l'.
Proof.
  revert l'. induction l as [|x l IH]; intros [|y l'] E; simpl in *;
    try discriminate; auto.
  injection E as E. destruct (IH l' E) as [-> ->]. auto.
Qed.

(** On the table that [pivot] builds, [sort_index] changes nothing. *)
Lemma sort_index_pivot (values : AggRow -> float) (rows : list AggRow) (w : Wide) :
  pivot values rows = Next w -> sort_index w = w.
Proof.
  unfold pivot.
  destruct (has_duplicates pair_eqb _); [discriminate|].
  intros E. injection E as <-. unfold sort_index. simpl.
  rewrite sort_by_fixed
    by (apply combine_ascending, sorted_index_strict).
  destruct (map_fst_combine_same
              (sort_with Z.leb (unique Z.eqb (map TS_BUCKET rows)))
              (map (fun b => map (cell_value values rows b)
                               (sorted_strings
                                  (unique String.eqb (map location rows))))
                 (sort_with Z.leb (unique Z.eqb (map TS_BUCKET rows)))))
    as [-> ->]; [now rewrite length_map | reflexivity].
Qed.

Lemma locations_In (pdf : list AggRow) (l : string) :
  In l (locations pdf) <-> In l (map location pdf).
Proof.
  unfold locations, sorted_strings.
  now rewrite sort_with_In, (unique_In String.eqb String.eqb_eq).
Qed.

Lemma plot_df_locations (pdf : list AggRow) (sel_locs : list string)
  (l : string) :
  In l (map location (plot_df pdf sel_locs)) <->
  In l (map location pdf) /\ In l sel_locs.
Proof.
  unfold plot_df. rewrite !in_map_iff. split.
  - intros (a & <- & Ha). apply filter_In in Ha. destruct Ha as [Ha Hs].
    apply isin_In in Hs. split; [eauto | assumption].
  - intros [(a & <- & Ha) Hs]. exists a. split; [reflexivity|].
    apply filter_In. split; [assumption | now apply isin_In].
Qed.

Lemma wide_shape (values : AggRow -> float) (rows : list AggRow) (w : Wide) :
  map_step sort_index (pivot values rows) = Next w ->
  StronglySorted Z.lt (index w) /\
  (forall b, In b (index w) <-> In b (map TS_BUCKET rows)) /\
  NoDup (columns w) /\
  (forall l, In l (columns w) <-> In l (map location rows)) /\
  List.length (cells w) = List.length (index w) /\
  Forall (fun row => List.length row = List.length (columns w)) (cells w) /\
  forall i j b l,
    nth_error (index w) i = Some b ->
    nth_error (columns w) j = Some l ->
    cell w i j = cell_value values rows b l.
Proof.
  destruct (pivot values rows) as [w0| |e] eqn:Ep; simpl; try discriminate.
  intros E. injection E as <-. rewrite (sort_index_pivot _ _ _ Ep).
  unfold pivot in Ep.
  destruct (has_duplicates pair_eqb _) eqn:Ed; [discriminate|].
  injection Ep as <-. unfold cell. simpl.
  split; [apply sorted_index_strict|].
  split; [intros b; now rewrite sort_with_In, (unique_In Z.eqb Z.eqb_eq)|].
  split; [apply sort_with_NoDup, unique_NoDup, String.eqb_eq|].
  split; [intros l; unfold sorted_strings;
          now rewrite sort_with_In, (unique_In String.eqb String.eqb_eq)|].
  split; [apply length_map|].
  split.
  - apply Forall_forall. intros row Hrow.
    apply in_map_iff in Hrow. destruct Hrow as (b & <- & _).
    apply length_map.
  - intros i j b l Hi Hj.
    match goal with
    | |- nth j (nth i (map ?f ?idx) []) None = _ =>
        rewrite (nth_error_nth (map f idx) i (x := f b))
          by (rewrite nth_error_map, Hi; reflexivity)
    end.
    apply nth_error_nth. now rewrite nth_error_map, Hj.
Qed.

(** C5: take the aggregate rows restricted to the selected locations, not
    empty; a reshape succeeds as soon as no (bucket, location) pair occurs
    twice among them.  Each of the two tables that the script then charts
    (temperature, humidity) has as index the distinct bucket timestamps of
    the rows in strictly ascending order, and as columns the distinct
    location labels of the rows, each once: these are the selected
    locations when the selection is drawn from the picker's options.  The
    table is rectangular; the cell of a bucket and a location holds the
    row's mean when a row with that bucket and location exists, and is
    missing, not zero, when none exists. *)
Theorem C5_wide_table_shape :
  forall (pdf : list AggRow) (sel_locs : list string),
    let rows := plot_df pdf sel_locs in
    rows <> [] ->
    (NoDup (cell_keys rows) ->
     (exists w, temp_wide rows = Next w) /\ (exists w, hum_wide rows = Next w)) /\
    forall (values : AggRow -> float) (w : Wide),
      values = AVG_TEMP_C /\ temp_wide rows = Next w \/
      values = AVG_HUMIDITY /\ hum_wide rows = Next w ->
      StronglySorted Z.lt (index w) /\
      (forall b, In b (index w) <-> In b (map TS_BUCKET rows)) /\
      NoDup (columns w) /\
      (forall l, In l (columns w) <-> In l (map location rows)) /\
      ((forall l, In l sel_locs -> In l (locations pdf)) ->
       forall l, In l (columns w) <-> In l sel_locs) /\
      List.length (cells w) = List.length (index w) /\
      Forall (fun row => List.length row = List.length (columns w)) (cells w) /\
      forall i j b l,
        nth_error (index w) i = Some b ->
        nth_error (columns w) j = Some l ->
        (forall v,
            cell w i j = Some v <->
            exists a, In a rows /\ TS_BUCKET a = b /\ location a = l /\
                      values a = v) /\
        ((forall a, In a rows -> ~ (TS_BUCKET a = b /\ location a = l)) ->
         cell w i j = None /\ cell w i j <> Some 0%float).
Proof.
  intros pdf sel_locs rows Hne. split.
  - intros Hnd. unfold temp_wide, hum_wide.
    destruct (proj2 (pivot_Next_iff AVG_TEMP_C rows) Hnd) as [w1 ->].
    destruct (proj2 (pivot_Next_iff AVG_HUMIDITY rows) Hnd) as [w2 ->].
    simpl. eauto.
  - intros values w Hw.
    assert (E : map_step sort_index (pivot values rows) = Next w).
    { destruct Hw as [[-> H] | [-> H]]; exact H. }
    assert (Hnd : NoDup (cell_keys rows)).
    { apply (pivot_Next_iff values).
      destruct (pivot values rows) as [w0| |e]; simpl in E;
        try discriminate; eauto. }
    destruct (wide_shape values rows w E)
      as (H1 & H2 & H3 & H4 & H5 & H6 & H7).
    repeat (split; [assumption|]).
    split.
    { intros Hsel l. rewrite H4. unfold rows. rewrite plot_df_locations.
      split; [tauto|]. intros Hl. split; [|assumption].
      now apply locations_In, Hsel. }
    repeat (split; [assumption|]).
    intros i j b l Hi Hj. rewrite (H7 i j b l Hi Hj). split.
    + intros v. now apply cell_value_Some.
    + intros Hno. apply (cell_value_None values) in Hno.
      rewrite Hno. split; [reflexivity | discriminate].
Qed.

Lemma C5_wide_table_shape_witness :
  cell {| index := [Sample.at_clock 8 0; Sample.at_clock 9 0];
          columns := ["X / 1"; "Y / 1"];
          cells := [[Some 20%float; None]; [Some 21%float; Some 0%float]] |} 0 1 = None.
Proof.
  assert (Hne : plot_df [Sample.x8; Sample.x9; Sample.y9] ["X / 1"; "Y / 1"]
                <> []) by discriminate.
  destruct (C5_wide_table_shape [Sample.x8; Sample.x9; Sample.y9]
              ["X / 1"; "Y / 1"] Hne) as [_ H].
  destruct (H AVG_TEMP_C
              {| index := [Sample.at_clock 8 0; Sample.at_clock 9 0];
                 columns := ["X / 1"; "Y / 1"];
                 cells := [[Some 20%float; None]; [Some 21%float; Some 0%float]] |})
    as (_ & _ & _ & _ & _ & _ & _ & Hc).
  - left. split; reflexivity.
  - destruct (Hc 0%nat 1%nat (Sample.at_clock 8 0) "Y / 1" eq_refl eq_refl)
      as [_ Hn].
    apply Hn. intros a [<- | [<- | [<- | []]]] [Hb Hl]; discriminate.
Defined.

(** ** Location labels *)

Lemma NoDup_map_of_inj {A B : Type} (g : A -> B) (l : list A) :
  (forall a b, In a l -> In b l -> g a = g b -> a = b) ->
  NoDup l -> NoDup (map g l).
Proof.
  intros Hinj Hnd. induction Hnd as [|x l Hn Hd IH]; simpl; constructor.
  - intros Hin. apply in_map_iff in Hin. destruct Hin as (y & E & Hy).
    assert (y = x) by (apply Hinj; simpl; auto).
    now subst.
  - apply IH. intros a b Ha Hb. apply Hinj; now right.
Qed.

Lemma cell_keys_NoDup (rows : list AggRow) :
  NoDup (map row_key rows) -> label_injective rows -> NoDup (cell_keys rows).
Proof.
  intros Hnd Hinj. apply NoDup_map_of_inj; [|now apply NoDup_map_inv in Hnd].
  intros a b Ha Hb E. injection E as Eb El.
  destruct (Hinj a b Ha Hb Eb El) as [Es Er].
  apply (NoDup_map_eq row_key rows); try assumption.
  unfold row_key. congruence.
Qed.

Lemma cell_keys_clash (rows : list AggRow) (a b : AggRow) :
  In a rows -> In b rows ->
  TS_BUCKET a = TS_BUCKET b -> location a = location b ->
  (SITE a, ROOM a) <> (SITE b, ROOM b) ->
  ~ NoDup (cell_keys rows).
Proof.
  intros Ha Hb Eb El Hne Hnd. apply Hne.
  assert (a = b).
  { apply (NoDup_map_eq (fun a => (TS_BUCKET a, location a)) rows);
      try assumption. congruence. }
  now subst.
Qed.

(** C10: the reshape relies on the label "site / room" naming one (site,
    room) pair per bucket.  For rows with pairwise different (bucket, site,
    room) keys in which, within a bucket, equal labels mean equal site and
    room, both reshapes succeed.  Whenever two rows of one bucket with
    different (site, room) pairs have the same label, both reshapes raise
    pandas' duplicate-entries error; the pairs ("A / B", "C") and ("A",
    "B / C") are such rows, and on them the script ends in that error
    after the figures, with no chart drawn. *)
Theorem C10_label_collision :
  (forall rows : list AggRow,
      NoDup (map row_key rows) -> label_injective rows ->
      (exists w, temp_wide rows = Next w) /\
      (exists w, hum_wide rows = Next w)) /\
  (forall (rows : list AggRow) (a b : AggRow),
      In a rows -> In b rows ->
      TS_BUCKET a = TS_BUCKET b -> location a = location b ->
      (SITE a, ROOM a) <> (SITE b, ROOM b) ->
      temp_wide rows = Raise "Index contains duplicate entries, cannot reshape" /\
      hum_wide rows = Raise "Index contains duplicate entries, cannot reshape") /\
  NoDup (map row_key [Sample.clash1; Sample.clash2]) /\
  location Sample.clash1 = location Sample.clash2 /\
  forall (fmt : CellFormat) (s : Session),
    fst (present fmt [Sample.clash1; Sample.clash2] ["A / B / C"] s) =
    Raise "Index contains duplicate entries, cannot reshape" /\
    filter is_chart
      (screen (snd (present fmt [Sample.clash1; Sample.clash2]
                      ["A / B / C"] s))) =
    filter is_chart (screen s).
Proof.
  split; [|split; [|split; [|split]]].
  - intros rows Hnd Hinj.
    pose proof (cell_keys_NoDup rows Hnd Hinj) as Hk.
    unfold temp_wide, hum_wide.
    destruct (proj2 (pivot_Next_iff AVG_TEMP_C rows) Hk) as [w1 ->].
    destruct (proj2 (pivot_Next_iff AVG_HUMIDITY rows) Hk) as [w2 ->].
    simpl. eauto.
  - intros rows a b Ha Hb Eb El Hne.
    pose proof (cell_keys_clash rows a b Ha Hb Eb El Hne) as Hk.
    unfold temp_wide, hum_wide.
    rewrite (proj2 (pivot_Raise_iff AVG_TEMP_C rows) Hk).
    rewrite (proj2 (pivot_Raise_iff AVG_HUMIDITY rows) Hk).
    split; reflexivity.
  - apply (has_duplicates_false key_eqb key_eqb_spec). reflexivity.
  - reflexivity.
  - intros fmt s. step_script. split; [reflexivity|].
    rewrite <- !app_assoc. rewrite filter_app. simpl.
    apply app_nil_r.
Qed.

Lemma C10_label_collision_witness :
  (exists w, temp_wide [Sample.x8; Sample.x9; Sample.y9] = Next w) /\
  temp_wide [Sample.clash1; Sample.clash2] =
  Raise "Index contains duplicate entries, cannot reshape".
Proof.
  destruct C10_label_collision as (Hok & Hbad & _).
  split.
  - apply Hok.
    + apply (has_duplicates_false key_eqb key_eqb_spec). reflexivity.
    + intros a b [<- | [<- | [<- | []]]] [<- | [<- | [<- | []]]] Eb El;
        first [split; reflexivity | discriminate].
  - apply (Hbad [Sample.clash1; Sample.clash2] Sample.clash1 Sample.clash2).
    + now left.
    + right. now left.
    + reflexivity.
    + reflexivity.
    + discriminate.
Defined.

(** ** Row order *)

Lemma ascending_swap {A : Type} (key : A -> Z) (l1 l2 : list A) (a b : A) :
  key a = key b ->
  ascending_by key (l1 ++ a :: b :: l2) ->
  ascending_by key (l1 ++ b :: a :: l2).
Proof.
  unfold ascending_by. intros E. induction l1 as [|x l1 IH]; simpl; intros H.
  - inversion H as [|? ? Hs Ha]; subst.
    inversion Hs as [|? ? Hs' Hb]; subst.
    inversion Ha as [|? ? _ Ha']; subst.
    constructor; [constructor; assumption|].
    constructor; [lia|].
    eapply Forall_impl; [|exact Hb]. simpl. intros; lia.
  - inversion H as [|? ? Hs Hx]; subst.
    constructor; [now apply IH|].
    eapply Permutation_Forall; [|exact Hx].
    apply Permutation_app_head, perm_swap.
Qed.

Lemma query_result_keys (c : Criteria) (base_df : list Reading)
  (pdf : list AggRow) :
  query_result c base_df pdf -> NoDup (map row_key pdf).
Proof.
  intros [Hp _].
  eapply Permutation_NoDup; [apply Permutation_map; exact Hp|].
  rewrite df_buck_keys. apply unique_NoDup, key_eqb_spec.
Qed.

(** C8 fails as stated: with sites A and B reporting in the same hour, the
    frame with B's row before A's row is ascending in the bucket timestamp
    and so is an answer to the script's sort, although the two rows share
    their bucket timestamp and "B" sorts after "A". *)
Lemma C8_ties_not_broken_by_site :
  query_result (Sample.whole_day hour)
    [Sample.rB; Sample.r0800; Sample.r0830] [Sample.rowB; Sample.rowA] /\
  TS_BUCKET Sample.rowB = TS_BUCKET Sample.rowA /\
  ~ Sorted row_lex_le [Sample.rowB; Sample.rowA] /\
  ~ (forall c base_df pdf,
        query_result c base_df pdf -> Sorted row_lex_le pdf).
Proof.
  assert (Hq : query_result (Sample.whole_day hour)
                 [Sample.rB; Sample.r0800; Sample.r0830]
                 [Sample.rowB; Sample.rowA]).
  { split; [reflexivity|].
    repeat constructor; simpl; lia. }
  assert (Hn : ~ Sorted row_lex_le [Sample.rowB; Sample.rowA]).
  { intros H. inversion H as [|? ? _ Hh]; subst.
    inversion Hh as [|? ? Hle]; subst.
    destruct Hle as [Hlt | [_ [Hs | [Hs _]]]].
    - simpl in Hlt. lia.
    - discriminate.
    - discriminate. }
  split; [exact Hq|]. split; [reflexivity|]. split; [exact Hn|].
  intros H. apply Hn. eapply H. exact Hq.
Qed.

(** C8, amended: a frame is always delivered; every delivered frame holds
    exactly the aggregate rows, each once, in ascending order of bucket
    timestamp, and stays ascending when restricted to selected locations.
    The sort names the bucket timestamp only: exchanging two neighbouring
    rows that share a bucket timestamp gives another frame the sort may
    deliver, so neither site nor room decides their order. *)
Theorem C8_ascending_by_bucket :
  forall (c : Criteria) (base_df : list Reading),
    (exists pdf, query_result c base_df pdf) /\
    forall pdf,
      query_result c base_df pdf ->
      ascending_by TS_BUCKET pdf /\
      Permutation (df_buck (granularity c) (filtered c base_df)) pdf /\
      NoDup (map row_key pdf) /\
      (forall sel_locs, ascending_by TS_BUCKET (plot_df pdf sel_locs)) /\
      (forall l1 a b l2,
          pdf = l1 ++ a :: b :: l2 ->
          TS_BUCKET a = TS_BUCKET b ->
          query_result c base_df (l1 ++ b :: a :: l2)).
Proof.
  intros c base_df. split; [apply query_result_exists|].
  intros pdf Hq. pose proof Hq as [Hp Ha].
  split; [assumption|]. split; [assumption|].
  split; [eapply query_result_keys; eassumption|].
  split; [intros sel_locs; now apply ascending_filter|].
  intros l1 a b l2 -> E. split.
  - rewrite Hp. apply Permutation_app_head, perm_swap.
  - now apply ascending_swap.
Qed.

Lemma C8_ascending_by_bucket_witness :
  query_result (Sample.whole_day hour)
    [Sample.rB; Sample.r0800; Sample.r0830] [Sample.rowA; Sample.rowB].
Proof.
  destruct (C8_ascending_by_bucket (Sample.whole_day hour)
              [Sample.rB; Sample.r0800; Sample.r0830]) as [_ H].
  destruct (H [Sample.rowB; Sample.rowA]) as (_ & _ & _ & _ & Hswap).
  - split; [reflexivity|]. repeat constructor; simpl; lia.
  - apply (Hswap [] Sample.rowB Sample.rowA []); reflexivity.
Defined.

(** ** Reruns and the export *)

Lemma float_eqb_spec (x y : float) : float_eqb x y = true <-> x = y.
Proof. apply FloatAxioms.Leibniz.eqb_spec. Qed.

Lemma row_eqb_refl (a : AggRow) : row_eqb a a = true.
Proof.
  unfold row_eqb.
  rewrite Z.eqb_refl, !String.eqb_refl.
  now rewrite !(proj2 (float_eqb_spec _ _) eq_refl).
Qed.

Lemma frame_eqb_refl (df : list AggRow) : frame_eqb df df = true.
Proof.
  induction df as [|a df IH]; simpl; [reflexivity|].
  now rewrite row_eqb_refl, IH.
Qed.

Lemma row_eqb_eq (a b : AggRow) : row_eqb a b = true -> a = b.
Proof.
  destruct a, b. unfold row_eqb. simpl.
  rewrite !andb_true_iff, Z.eqb_eq, !String.eqb_eq.
  intros [[[[-> ->] ->] Ht] Hh].
  apply float_eqb_spec in Ht, Hh. now subst.
Qed.

Lemma frame_eqb_eq (x y : list AggRow) : frame_eqb x y = true -> x = y.
Proof.
  revert y. induction x as [|a x IH]; intros [|b y]; simpl;
    try discriminate; [reflexivity|].
  rewrite andb_true_iff. intros [Hab Hxy].
  apply row_eqb_eq in Hab. apply IH in Hxy. now subst.
Qed.

Lemma cache_lookup_head (df : list AggRow) (data : string)
  (cache : list (list AggRow * string)) :
  cache_lookup df ((df, data) :: cache) = Some data.
Proof. unfold cache_lookup. simpl. now rewrite frame_eqb_refl. Qed.


Lemma cache_lookup_sound (fmt : CellFormat) (df : list AggRow)
  (cache : list (list AggRow * string)) (data : string) :
  cache_sound fmt cache ->
  cache_lookup df cache = Some data -> data = to_csv fmt df.
Proof.
  unfold cache_lookup, cache_sound. intros Hc.
  destruct (find (fun e => frame_eqb (fst e) df) cache) as [e|] eqn:E;
    simpl; [|discriminate].
  intros H. injection H as <-.
  apply find_some in E. destruct E as [Hin Heq].
  apply frame_eqb_eq in Heq. rewrite Forall_forall in Hc.
  rewrite (Hc e Hin). now rewrite Heq.
Qed.

Lemma convert_for_download_sound (fmt : CellFormat) (df : list AggRow)
  (s : Session) :
  cache_sound fmt (csv_cache s) ->
  fst (convert_for_download fmt df s) = Next (to_csv fmt df) /\
  cache_sound fmt (csv_cache (snd (convert_for_download fmt df s))).
Proof.
  intros Hc. unfold convert_for_download.
  destruct (cache_lookup df (csv_cache s)) as [data|] eqn:E; simpl.
  - split; [|assumption]. f_equal. eapply cache_lookup_sound; eassumption.
  - split; [reflexivity|]. constructor; [reflexivity | assumption].
Qed.

(** From a sound memo table the script exports the CSV text of the
    restricted frame, if it gets as far as the download button. *)
Lemma present_exports (fmt : CellFormat) (pdf : list AggRow)
  (sel_locs : list string) (s : Session) :
  cache_sound fmt (csv_cache s) ->
  cache_sound fmt (csv_cache (snd (present fmt pdf sel_locs s))) /\
  (fst (present fmt pdf sel_locs s) = Next tt ->
   exports (screen (snd (present fmt pdf sel_locs s))) =
   exports (screen s) ++ [to_csv fmt (plot_df pdf sel_locs)]).
Proof.
  intros Hc. destruct pdf as [|a pdf].
  { split; [assumption | discriminate]. }
  remember (a :: pdf) as rows eqn:Erows.
  assert (Ef : frame_empty rows = false) by now subst.
  assert (Hx : forall ws d,
             exports (ws ++ [download_button "Download CSV" d
                               "data_aggregated.csv" "text/csv"]) =
             exports ws ++ [d]).
  { induction ws as [|w ws IH]; intros d; simpl; [reflexivity|].
    destruct (exported w); simpl; now rewrite IH. }
  assert (Hn : forall ws w, exported w = None ->
                            exports (ws ++ [w]) = exports ws).
  { induction ws as [|w0 ws IH]; intros w Hw; simpl.
    - now rewrite Hw.
    - destruct (exported w0); simpl; now rewrite IH. }
  pose proof (convert_for_download_sound fmt (plot_df rows sel_locs)) as Hd.
  unfold convert_for_download in Hd.
  step_script. rewrite Ef. simpl.
  destruct (frame_empty (plot_df rows sel_locs)); simpl.
  - match goal with
    | |- context [cache_lookup ?d ?c] =>
        specialize (Hd {| screen := []; csv_cache := c |} Hc); simpl in Hd;
        destruct (cache_lookup d c) eqn:Ec; simpl in *
    end;
      destruct Hd as [Hd1 Hd2]; try (injection Hd1 as Hd1);
      (split; [assumption|]); intros _;
      rewrite !Hn by reflexivity; rewrite Hx, !Hn by reflexivity;
      congruence.
  - destruct (temp_wide (plot_df rows sel_locs)); simpl;
      try (split; [assumption | discriminate]).
    destruct (hum_wide (plot_df rows sel_locs)); simpl;
      try (split; [assumption | discriminate]).
    match goal with
    | |- context [cache_lookup ?d ?c] =>
        specialize (Hd {| screen := []; csv_cache := c |} Hc); simpl in Hd;
        destruct (cache_lookup d c) eqn:Ec; simpl in *
    end;
      destruct Hd as [Hd1 Hd2]; try (injection Hd1 as Hd1);
      (split; [assumption|]); intros _;
      rewrite !Hn by reflexivity; rewrite Hx, !Hn by reflexivity;
      congruence.
Qed.



(** * Further properties of the script *)

(** ** Timestamps, dates and buckets *)

Lemma floor_multiple (u t b : Z) :
  0 < u -> (u * (t / u) = b <-> b mod u = 0 /\ b <= t < b + u).
Proof.
  intros Hu. split.
  - intros <-. split.
    + rewrite Z.mul_comm. apply Z.mod_mul. lia.
    + pose proof (Z.mod_pos_bound t u Hu). pose proof (Z.div_mod t u). lia.
  - intros [Hb Hr].
    assert (Eb : b = u * (b / u)) by (pose proof (Z.div_mod b u); lia).
    rewrite Eb at 1. f_equal.
    symmetry. apply Z.div_unique with (r := t - b); [lia|].
    rewrite Eb at 2. lia.
Qed.

Lemma DATE_TRUNC_window (g : Granularity) (t b : Z) :
  DATE_TRUNC g t = b <-> aligned g b /\ b <= t < b + unit_of g.
Proof.
  rewrite DATE_TRUNC_mul. apply floor_multiple, unit_of_pos.
Qed.

Lemma DATE_TRUNC_mono (g : Granularity) (a b : Z) :
  a <= b -> DATE_TRUNC g a <= DATE_TRUNC g b.
Proof.
  intros H. apply aligned_le_DATE_TRUNC; [apply DATE_TRUNC_aligned|].
  pose proof (DATE_TRUNC_le g a). lia.
Qed.

Lemma floor_coarser (u k t : Z) :
  0 < u -> 0 < k ->
  (u * k) * (t / (u * k)) <= u * (t / u) /\
  (u * k) * ((u * (t / u)) / (u * k)) = (u * k) * (t / (u * k)).
Proof.
  intros Hu Hk.
  assert (E : (u * (t / u)) / (u * k) = t / (u * k)).
  { rewrite <- !Z.div_div by lia.
    now rewrite (Z.mul_comm u), Z.div_mul by lia. }
  split; [|now rewrite E].
  rewrite <- Z.div_div by lia.
  pose proof (Z.mul_div_le (t / u) k Hk). nia.
Qed.

(** Buckets of the three granularities are nested: the day bucket is not
    after the hour bucket, which is not after the minute bucket, which is
    not after the timestamp; truncating a finer bucket to a coarser unit
    gives the coarser bucket of the timestamp itself; and truncation keeps
    the order of timestamps. *)
Theorem buckets_nested :
  forall t : Z,
    DATE_TRUNC day t <= DATE_TRUNC hour t /\
    DATE_TRUNC hour t <= DATE_TRUNC minute t /\
    DATE_TRUNC minute t <= t /\
    DATE_TRUNC hour (DATE_TRUNC minute t) = DATE_TRUNC hour t /\
    DATE_TRUNC day (DATE_TRUNC hour t) = DATE_TRUNC day t /\
    DATE_TRUNC day (DATE_TRUNC minute t) = DATE_TRUNC day t /\
    forall g t', t <= t' -> DATE_TRUNC g t <= DATE_TRUNC g t'.
Proof.
  intros t.
  assert (Hm : 0 < Time.ns_per_minute) by reflexivity.
  assert (Hh : 0 < Time.ns_per_hour) by reflexivity.
  destruct (floor_coarser Time.ns_per_minute 60 t Hm eq_refl) as [A1 A2].
  destruct (floor_coarser Time.ns_per_hour 24 t Hh eq_refl) as [B1 B2].
  destruct (floor_coarser Time.ns_per_minute (60 * 24) t Hm eq_refl)
    as [C1 C2].
  rewrite !DATE_TRUNC_mul. simpl unit_of.
  change Time.ns_per_hour with (Time.ns_per_minute * 60).
  change Time.ns_per_day with (Time.ns_per_minute * 60 * 24).
  change (Time.ns_per_hour * 24) with (Time.ns_per_minute * 60 * 24) in B1, B2.
  change Time.ns_per_hour with (Time.ns_per_minute * 60) in B1, B2.
  rewrite Z.mul_assoc in C1, C2.
  repeat split; try assumption.
  - pose proof (DATE_TRUNC_le minute t) as H.
    rewrite DATE_TRUNC_mul in H. exact H.
  - intros g t' Hle. now apply DATE_TRUNC_mono.
Qed.

Lemma buckets_nested_witness :
  DATE_TRUNC hour (Sample.at_clock 8 0) <= DATE_TRUNC hour (Sample.at_clock 8 30).
Proof.
  destruct (buckets_nested (Sample.at_clock 8 0)) as (_ & _ & _ & _ & _ & _ & H).
  apply H. now apply Z.leb_le.
Defined.

Lemma combine_of_parts (x : Z) :
  Time.combine (Time.date_of x) (Time.time_of x) = x /\
  0 <= Time.time_of x < Time.ns_per_day.
Proof.
  unfold Time.combine, Time.date_of, Time.time_of.
  assert (Hd : 0 < Time.ns_per_day) by reflexivity.
  split; [pose proof (Z.div_mod x Time.ns_per_day); lia|].
  apply Z.mod_pos_bound, Hd.
Qed.

Lemma parts_of_combine (d t : Z) :
  0 <= t < Time.ns_per_day ->
  Time.date_of (Time.combine d t) = d /\ Time.time_of (Time.combine d t) = t.
Proof.
  unfold Time.combine, Time.date_of, Time.time_of.
  assert (Hd : 0 < Time.ns_per_day) by reflexivity.
  intros Ht. split.
  - rewrite Z.div_add_l by lia. rewrite Z.div_small by lia. lia.
  - rewrite Z.add_comm, Z.mod_add by lia. now apply Z.mod_small.
Qed.

(** [datetime.combine] and the [.date()]/[.time()] accessors are inverse
    to each other: a timestamp is the combination of its date and its time
    of day, the time of day of every timestamp lies within one day, and a
    date combined with a time of day within one day has that date and that
    time. *)
Theorem combine_date_time :
  forall x : Z,
    Time.combine (Time.date_of x) (Time.time_of x) = x /\
    0 <= Time.time_of x < Time.ns_per_day /\
    forall d t,
      0 <= t < Time.ns_per_day ->
      Time.date_of (Time.combine d t) = d /\
      Time.time_of (Time.combine d t) = t.
Proof.
  intros x. destruct (combine_of_parts x) as [H1 H2].
  split; [exact H1|]. split; [exact H2|].
  intros d t. apply parts_of_combine.
Qed.

Lemma combine_date_time_witness :
  Time.date_of (Time.combine Sample.d0 (8 * Time.ns_per_hour)) = Sample.d0.
Proof.
  destruct (combine_date_time 0) as (_ & _ & H).
  apply (H Sample.d0 (8 * Time.ns_per_hour)). split; [discriminate | reflexivity].
Defined.

(** ** Bounds and seeds *)

Lemma fold_Zmin (t : list Z) (x : Z) :
  In (fold_left Z.min t x) (x :: t) /\
  Forall (fun y => fold_left Z.min t x <= y) (x :: t).
Proof.
  revert x. induction t as [|y t IH]; intros x; simpl.
  - split; [now left|]. repeat constructor. lia.
  - destruct (IH (Z.min x y)) as [Hin Hall].
    inversion Hall as [|? ? Hm Ht]; subst. split.
    + simpl in Hin. destruct Hin as [E|Hin]; [|auto].
      rewrite <- E. destruct (Z.min_spec x y) as [[_ ->] | [_ ->]]; auto.
    + constructor; [lia|]. constructor; [lia | assumption].
Qed.

Lemma fold_Zmax (t : list Z) (x : Z) :
  In (fold_left Z.max t x) (x :: t) /\
  Forall (fun y => y <= fold_left Z.max t x) (x :: t).
Proof.
  revert x. induction t as [|y t IH]; intros x; simpl.
  - split; [now left|]. repeat constructor. lia.
  - destruct (IH (Z.max x y)) as [Hin Hall].
    inversion Hall as [|? ? Hm Ht]; subst. split.
    + simpl in Hin. destruct Hin as [E|Hin]; [|auto].
      rewrite <- E. destruct (Z.max_spec x y) as [[_ ->] | [_ ->]]; auto.
    + constructor; [lia|]. constructor; [lia | assumption].
Qed.

Lemma table_bounds (now : Z) (table : list Reading) :
  table <> [] ->
  exists mn mx,
    min_ts now table = Some mn /\ max_ts now table = Some mx /\
    In mn (map ts table) /\ In mx (map ts table) /\
    forall r, In r table -> mn <= ts r <= mx.
Proof.
  intros Hne. destruct table as [|r0 table]; [congruence|].
  exists (fold_left Z.min (map ts table) (ts r0)),
         (fold_left Z.max (map ts table) (ts r0)).
  destruct (fold_Zmin (map ts table) (ts r0)) as [Hi1 Ha1].
  destruct (fold_Zmax (map ts table) (ts r0)) as [Hi2 Ha2].
  repeat split; try assumption.
  - rewrite Forall_forall in Ha1. apply Ha1.
    change (In (ts r) (map ts (r0 :: table))). now apply in_map.
  - rewrite Forall_forall in Ha2. apply Ha2.
    change (In (ts r) (map ts (r0 :: table))). now apply in_map.
Qed.

(** On a table with at least one reading, whatever the clock, the sidebar
    gets the earliest and the latest timestamp of the table: both are
    timestamps of readings and every reading lies between them. *)
Theorem bounds_are_extremes :
  forall (now : Z) (table : list Reading),
    table <> [] ->
    exists mn mx,
      min_ts now table = Some mn /\ max_ts now table = Some mx /\
      (exists r, In r table /\ ts r = mn) /\
      (exists r, In r table /\ ts r = mx) /\
      forall r, In r table -> mn <= ts r <= mx.
Proof.
  intros now table Hne.
  destruct (table_bounds now table Hne) as (mn & mx & E1 & E2 & I1 & I2 & H).
  exists mn, mx. repeat split; try assumption; try (now apply H).
  - apply in_map_iff in I1. destruct I1 as (r & E & Hr). eauto.
  - apply in_map_iff in I2. destruct I2 as (r & E & Hr). eauto.
Qed.

Lemma bounds_are_extremes_witness :
  exists mn mx,
    min_ts 0 [Sample.r0830; Sample.r0800] = Some mn /\
    max_ts 0 [Sample.r0830; Sample.r0800] = Some mx /\
    mn <= ts Sample.r0800 <= mx.
Proof.
  assert (Hne : [Sample.r0830; Sample.r0800] <> []) by discriminate.
  destruct (bounds_are_extremes 0 _ Hne) as (mn & mx & E1 & E2 & _ & _ & H).
  exists mn, mx. split; [exact E1 | split; [exact E2|]].
  apply H. right. now left.
Defined.

Lemma date_of_mono (a b : Z) : a <= b -> Time.date_of a <= Time.date_of b.
Proof. intros H. apply Z.div_le_mono; [reflexivity | exact H]. Qed.

Lemma to_pydatetime_mul (t : Z) : to_pydatetime t = 1000 * (t / 1000).
Proof. unfold to_pydatetime. rewrite Z.mod_eq by discriminate. lia. Qed.

Lemma date_of_to_pydatetime (t : Z) :
  Time.date_of (to_pydatetime t) = Time.date_of t.
Proof.
  rewrite to_pydatetime_mul. unfold Time.date_of.
  change Time.ns_per_day with (1000 * 86400000000).
  rewrite <- !Z.div_div by lia.
  now rewrite (Z.mul_comm 1000), Z.div_mul by lia.
Qed.

Lemma combine_seed (t : Z) :
  Time.combine (Time.date_of t) (Time.time_of (to_pydatetime t)) =
  to_pydatetime t.
Proof.
  rewrite <- (date_of_to_pydatetime t).
  apply (combine_of_parts (to_pydatetime t)).
Qed.

(** On a table with at least one reading the date widget is seeded with a
    start date not after the end date, the end date being the last allowed
    date; the start date is not before the first allowed date as soon as
    the table spans an hour.  Put together with the seeds of the two time
    widgets, the seeded dates give the last hour before the latest
    timestamp, both ends cut to whole microseconds. *)
Theorem seeds_last_hour :
  forall (now : Z) (table : list Reading),
    table <> [] ->
    exists d t1 t2 mn mx,
      min_ts now table = Some mn /\ max_ts now table = Some mx /\
      date_input_seed now table = Some d /\
      start_time_seed now table = Some t1 /\
      end_time_seed now table = Some t2 /\
      value_start d <= value_end d /\
      value_end d = max_value d /\
      (mn + Time.Timedelta_hours 1 <= mx -> min_value d <= value_start d) /\
      Time.combine (value_start d) t1 =
      to_pydatetime (mx - Time.Timedelta_hours 1) /\
      Time.combine (value_end d) t2 = to_pydatetime mx.
Proof.
  intros now table Hne.
  destruct (table_bounds now table Hne) as (mn & mx & E1 & E2 & _ & _ & _).
  unfold date_input_seed, start_time_seed, end_time_seed, default_start.
  rewrite E1, E2. simpl.
  do 5 eexists. repeat (split; [reflexivity|]). simpl.
  split; [apply date_of_mono; unfold Time.Timedelta_hours; simpl; lia|].
  split; [reflexivity|].
  split; [intros H; apply date_of_mono; lia|].
  split; apply combine_seed.
Qed.

Lemma seeds_last_hour_witness :
  exists d,
    date_input_seed 0 [Sample.r0800; mkReading (Sample.at_clock 10 0) "A" "101" "s1" 20 50]
    = Some d /\
    min_value d <= value_start d.
Proof.
  assert (Hne : [Sample.r0800;
                 mkReading (Sample.at_clock 10 0) "A" "101" "s1" 20 50] <> [])
    by discriminate.
  destruct (seeds_last_hour 0 _ Hne)
    as (d & t1 & t2 & mn & mx & E1 & E2 & Ed & _ & _ & _ & _ & H & _).
  exists d. split; [exact Ed|]. apply H.
  injection E1 as <-. injection E2 as <-. now apply Z.leb_le.
Defined.

(** When every reading of the table falls on one day, less than an hour
    after midnight, the start date that seeds the date widget is the day
    before the first allowed date. *)
Theorem seed_start_before_first_date :
  forall (now : Z) (table : list Reading) (d0 : Z),
    table <> [] ->
    (forall r, In r table ->
               Time.date_of (ts r) = d0 /\
               Time.time_of (ts r) < Time.Timedelta_hours 1) ->
    exists d,
      date_input_seed now table = Some d /\
      min_value d = d0 /\ value_start d = d0 - 1 /\
      value_start d < min_value d.
Proof.
  intros now table d0 Hne Hall.
  destruct (table_bounds now table Hne)
    as (mn & mx & E1 & E2 & I1 & I2 & _).
  apply in_map_iff in I1. destruct I1 as (r1 & Em & Hr1).
  apply in_map_iff in I2. destruct I2 as (r2 & Ex & Hr2).
  unfold date_input_seed, default_start. rewrite E1, E2.
  cbn [option_map].
  eexists. split; [reflexivity|]. cbn [min_value value_start].
  destruct (Hall r1 Hr1) as [D1 _]. destruct (Hall r2 Hr2) as [D2 T2].
  rewrite Em in D1. rewrite Ex in D2, T2.
  assert (Es : Time.date_of (mx - Time.Timedelta_hours 1) = d0 - 1).
  { destruct (combine_of_parts mx) as (Ec & Hb).
    rewrite D2 in Ec. unfold Time.combine in Ec.
    destruct (parts_of_combine (d0 - 1)
                (Time.ns_per_day - Time.Timedelta_hours 1 + Time.time_of mx))
      as [Hd _].
    { unfold Time.Timedelta_hours in *.
      change Time.ns_per_day with (24 * Time.ns_per_hour).
      assert (0 < Time.ns_per_hour) by reflexivity. lia. }
    rewrite <- Hd. f_equal. unfold Time.combine. lia. }
  rewrite Es. repeat split; [exact D1 | lia].
Qed.

Lemma seed_start_before_first_date_witness :
  exists d,
    date_input_seed 0 [mkReading (Sample.at_clock 0 30) "A" "101" "s1" 20 50]
    = Some d /\
    value_start d < min_value d.
Proof.
  destruct (seed_start_before_first_date 0
              [mkReading (Sample.at_clock 0 30) "A" "101" "s1" 20 50]
              Sample.d0) as (d & E & _ & _ & H).
  - discriminate.
  - intros r [<- | []]. split; [reflexivity | now apply Z.ltb_lt].
  - exists d. split; [exact E | exact H].
Defined.

(** ** How the script ends *)

Lemma df_buck_nil (g : Granularity) (df : list Reading) :
  df_buck g df = [] <-> df = [].
Proof.
  split; [|intros ->; reflexivity].
  destruct df as [|r df]; [reflexivity | discriminate].
Qed.

Lemma query_result_nil (c : Criteria) (base_df : list Reading)
  (pdf : list AggRow) :
  query_result c base_df pdf -> (pdf = [] <-> filtered c base_df = []).
Proof.
  intros [Hp _]. rewrite <- (df_buck_nil (granularity c)). split.
  - intros ->. symmetry in Hp. now apply Permutation_nil in Hp.
  - intros E. rewrite E in Hp. now apply Permutation_nil in Hp.
Qed.

Lemma frame_empty_iff {A : Type} (l : list A) : frame_empty l = true <-> l = [].
Proof. destruct l; simpl; split; congruence. Qed.

Lemma present_outcome (fmt : CellFormat) (pdf : list AggRow)
  (sel_locs : list string) (s : Session) :
  pdf <> [] ->
  (NoDup (cell_keys (plot_df pdf sel_locs)) ->
   fst (present fmt pdf sel_locs s) = Next tt) /\
  (~ NoDup (cell_keys (plot_df pdf sel_locs)) ->
   fst (present fmt pdf sel_locs s) =
   Raise "Index contains duplicate entries, cannot reshape").
Proof.
  intros Hne. destruct pdf as [|a pdf]; [congruence|].
  remember (a :: pdf) as rows eqn:Erows.
  assert (Ef : frame_empty rows = false) by now subst.
  step_script. rewrite Ef. simpl.
  destruct (frame_empty (plot_df rows sel_locs)) eqn:Ee; simpl.
  - apply frame_empty_iff in Ee. rewrite Ee. split.
    + intros _. now destruct (cache_lookup [] (csv_cache s)).
    + intros H. exfalso. apply H. constructor.
  - unfold temp_wide, hum_wide. split.
    + intros Hnd.
      destruct (proj2 (pivot_Next_iff AVG_TEMP_C _) Hnd) as [w1 ->].
      destruct (proj2 (pivot_Next_iff AVG_HUMIDITY _) Hnd) as [w2 ->].
      simpl.
      now destruct (cache_lookup (plot_df rows sel_locs) (csv_cache s)).
    + intros Hd.
      now rewrite (proj2 (pivot_Raise_iff AVG_TEMP_C _) Hd).
Qed.

Lemma NoDup_cell_keys_dec (rows : list AggRow) :
  NoDup (cell_keys rows) \/ ~ NoDup (cell_keys rows).
Proof.
  destruct (has_duplicates pair_eqb (cell_keys rows)) eqn:E.
  - right. now apply (has_duplicates_true pair_eqb pair_eqb_spec).
  - left. now apply (has_duplicates_false pair_eqb pair_eqb_spec).
Qed.

(** The script has three ways to end and the frame and the selection
    decide which.  It stops at the "no data" notice exactly when the frame
    is empty; it fails with pandas' duplicate-entries error exactly when
    the frame is not empty and two of the rows to plot share bucket and
    label; otherwise it runs to its last line.  In particular a selection
    that matches no row of a non-empty frame is not an error. *)
Theorem script_endings :
  forall (fmt : CellFormat) (pdf : list AggRow) (sel_locs : list string)
         (s : Session),
    let ending := fst (present fmt pdf sel_locs s) in
    (ending = Stop <-> pdf = []) /\
    (ending = Raise "Index contains duplicate entries, cannot reshape" <->
     pdf <> [] /\ ~ NoDup (cell_keys (plot_df pdf sel_locs))) /\
    (ending = Next tt <->
     pdf <> [] /\ NoDup (cell_keys (plot_df pdf sel_locs))) /\
    (forall e, ending = Raise e ->
               e = "Index contains duplicate entries, cannot reshape") /\
    (pdf <> [] -> plot_df pdf sel_locs = [] -> ending = Next tt).
Proof.
  intros fmt pdf sel_locs s ending. unfold ending.
  destruct pdf as [|a pdf].
  { rewrite present_empty. simpl.
    repeat split; try discriminate; try tauto; intros [H _]; congruence. }
  assert (Hne : a :: pdf <> []) by discriminate.
  destruct (present_outcome fmt (a :: pdf) sel_locs s Hne) as [Hok Hbad].
  destruct (NoDup_cell_keys_dec (plot_df (a :: pdf) sel_locs)) as [Hnd | Hd].
  - rewrite (Hok Hnd).
    repeat split; try discriminate; try tauto;
      try (intros [_ H]; contradiction).
  - rewrite (Hbad Hd).
    repeat split; try discriminate; try tauto;
      try (intros [_ H]; contradiction);
      try (intros e E; now injection E as <-).
    intros _ E. exfalso. apply Hd. rewrite E. constructor.
Qed.

Lemma script_endings_witness :
  fst (present Sample.plain [Sample.x8; Sample.x9; Sample.y9] ["Z / 9"] fresh)
  = Next tt.
Proof.
  destruct (script_endings Sample.plain [Sample.x8; Sample.x9; Sample.y9]
              ["Z / 9"] fresh) as (_ & _ & _ & _ & H).
  apply H; [discriminate | reflexivity].
Defined.

Lemma filter_nil_iff {A : Type} (f : A -> bool) (l : list A) :
  filter f l = [] <-> forall x, In x l -> f x = false.
Proof.
  induction l as [|a l IH]; simpl; [tauto|].
  destruct (f a) eqn:E; split.
  - discriminate.
  - intros H. specialize (H a (or_introl eq_refl)). congruence.
  - intros H x [<- | Hx]; [assumption | now apply IH].
  - intros H. apply IH. intros x Hx. apply H. now right.
Qed.

Lemma present_stop_iff (fmt : CellFormat) (pdf : list AggRow)
  (sel_locs : list string) (s : Session) :
  fst (present fmt pdf sel_locs s) = Stop <-> pdf = [].
Proof.
  split; [|intros ->; reflexivity].
  destruct pdf as [|a pdf]; [reflexivity|]. intros E. exfalso.
  assert (Hne : a :: pdf <> []) by discriminate.
  destruct (present_outcome fmt (a :: pdf) sel_locs s Hne) as [Hok Hbad].
  destruct (NoDup_cell_keys_dec (plot_df (a :: pdf) sel_locs)) as [Hnd | Hd].
  - rewrite (Hok Hnd) in E. discriminate.
  - rewrite (Hbad Hd) in E. discriminate.
Qed.

(** A run shows the "no data" notice and stops exactly when no reading of
    the table passes the filters; then the delivered frame is empty, and
    otherwise it is not. *)
Theorem no_data_iff_nothing_passes :
  forall (fmt : CellFormat) (c : Criteria) (base_df : list Reading)
         (sel_locs : list string) (s : Session) (out : Step unit * Session),
    run fmt c base_df sel_locs s out ->
    (fst out = Stop <-> forall r, In r base_df -> passes c r = false) /\
    (fst out = Stop <-> filtered c base_df = []) /\
    (fst out = Stop ->
     screen (snd out) = [info "No data found for the selected filters."]).
Proof.
  intros fmt c base_df sel_locs s out (pdf & Hq & ->).
  rewrite present_stop_iff, (query_result_nil _ _ _ Hq).
  split; [|split; [reflexivity|]].
  - rewrite filtered_passes. apply filter_nil_iff.
  - intros E. apply (query_result_nil _ _ _ Hq) in E. now subst.
Qed.

Lemma no_data_iff_nothing_passes_witness :
  fst (present Sample.plain
         (sort_by TS_BUCKET
            (df_buck hour
               (filtered Sample.inverted [Sample.r0800; Sample.r0830])))
         [] (rerun fresh)) = Stop.
Proof.
  destruct (no_data_iff_nothing_passes Sample.plain Sample.inverted
              [Sample.r0800; Sample.r0830] [] fresh
              (present Sample.plain
                 (sort_by TS_BUCKET
                    (df_buck hour
                       (filtered Sample.inverted
                          [Sample.r0800; Sample.r0830])))
                 [] (rerun fresh))) as (_ & H & _).
  - eexists. split; [apply sort_by_sorted_by | reflexivity].
  - apply H. reflexivity.
Defined.

(** ** What the delivered rows can be *)

Lemma df_buck_source (g : Granularity) (df : list Reading) (a : AggRow) :
  In a (df_buck g df) -> exists r, In r df /\ key_of g r = row_key a.
Proof. intros H. now apply df_buck_In in H. Qed.

(** Every row of a delivered frame comes from a reading that passed the
    filters: its site and its room are selected whenever a selection is
    made, its bucket timestamp is aligned to the granularity and lies
    between the bucket of the start of the range and the end of the
    range.  The bucket is bounded below by the bucket of the start, not
    by the start itself. *)
Theorem delivered_rows_within_filters :
  forall (c : Criteria) (base_df : list Reading) (pdf : list AggRow)
         (a : AggRow),
    query_result c base_df pdf ->
    In a pdf ->
    (exists r, In r base_df /\ passes c r = true /\
               key_of (granularity c) r = row_key a) /\
    (sel_sites c = [] \/ In (SITE a) (sel_sites c)) /\
    (sel_rooms c = [] \/ In (ROOM a) (sel_rooms c)) /\
    aligned (granularity c) (TS_BUCKET a) /\
    DATE_TRUNC (granularity c) (start_dt c) <= TS_BUCKET a <= end_dt c.
Proof.
  intros c base_df pdf a [Hp _] Hin.
  apply (Permutation_in _ (Permutation_sym Hp)) in Hin.
  apply df_buck_source in Hin. destruct Hin as (r & Hr & Ek).
  rewrite filtered_passes in Hr. apply filter_In in Hr.
  destruct Hr as [Hr Hpass].
  injection Ek as Eb Es Erm.
  split; [exists r; repeat split; try assumption;
          unfold key_of, row_key; congruence|].
  pose proof Hpass as Hp'. unfold passes in Hp'.
  rewrite !andb_true_iff, !orb_true_iff, in_range_spec, !isin_In,
    !frame_empty_iff in Hp'.
  destruct Hp' as [[Hrange Hs] Hrm].
  rewrite <- Es, <- Erm, <- Eb.
  split; [assumption|]. split; [assumption|].
  split; [apply DATE_TRUNC_aligned|].
  split; [apply DATE_TRUNC_mono; lia|].
  pose proof (DATE_TRUNC_le (granularity c) (ts r)). lia.
Qed.

Lemma delivered_rows_within_filters_witness :
  DATE_TRUNC hour (start_dt (Sample.whole_day hour)) <= TS_BUCKET Sample.rowA
  <= end_dt (Sample.whole_day hour).
Proof.
  destruct (delivered_rows_within_filters (Sample.whole_day hour)
              [Sample.rB; Sample.r0800; Sample.r0830]
              [Sample.rowB; Sample.rowA] Sample.rowA)
    as (_ & _ & _ & _ & H).
  - split; [reflexivity|]. repeat constructor. simpl. lia.
  - right. now left.
  - exact H.
Defined.

(** The readings averaged into one row are the readings of the row's site
    and room whose timestamps fall in the row's bucket: from the bucket
    timestamp, included, to one unit later, excluded. *)
Theorem group_is_one_window :
  forall (g : Granularity) (df : list Reading) (a : AggRow),
    In a (df_buck g df) ->
    aligned g (TS_BUCKET a) /\
    forall r,
      In r (members g (row_key a) df) <->
      In r df /\ site r = SITE a /\ room r = ROOM a /\
      TS_BUCKET a <= ts r < TS_BUCKET a + unit_of g.
Proof.
  intros g df a Ha.
  destruct (df_buck_source g df a Ha) as (r0 & _ & E0).
  injection E0 as Eb _ _.
  assert (Hal : aligned g (TS_BUCKET a))
    by (rewrite <- Eb; apply DATE_TRUNC_aligned).
  split; [exact Hal|].
  intros r. rewrite members_In. unfold key_of, row_key. split.
  - intros [Hin E]. injection E as E1 E2 E3.
    apply DATE_TRUNC_window in E1. tauto.
  - intros (Hin & Es & Er & Hw). split; [assumption|].
    f_equal; [f_equal|]; try assumption.
    apply DATE_TRUNC_window. tauto.
Qed.

Lemma group_is_one_window_witness :
  In Sample.r0830
    (members hour (row_key Sample.rowA) [Sample.rB; Sample.r0800; Sample.r0830]).
Proof.
  destruct (group_is_one_window hour [Sample.rB; Sample.r0800; Sample.r0830]
              Sample.rowA) as [_ H].
  - right. now left.
  - apply H. split; [right; right; now left|].
    split; [reflexivity|]. split; [reflexivity|].
    split; [now apply Z.leb_le | now apply Z.ltb_lt].
Defined.

(** ** Order of the table *)

Lemma filter_perm {A : Type} (f : A -> bool) (l l' : list A) :
  Permutation l l' -> Permutation (filter f l) (filter f l').
Proof.
  induction 1 as [|x l l' _ IH|x y l|l l' l'' _ IH1 _ IH2]; simpl.
  - constructor.
  - destruct (f x); [now constructor | assumption].
  - destruct (f x), (f y); try reflexivity. apply perm_swap.
  - now rewrite IH1.
Qed.

Lemma unique_perm {A : Type} (eqb : A -> A -> bool) (l l' : list A) :
  (forall x y, eqb x y = true <-> x = y) ->
  Permutation l l' -> Permutation (unique eqb l) (unique eqb l').
Proof.
  intros Hspec Hp. apply NoDup_Permutation; try now apply unique_NoDup.
  intros x. rewrite !(unique_In eqb Hspec).
  split; apply Permutation_in; [assumption | now symmetry].
Qed.

(** Which readings are kept and how they are grouped does not depend on
    the order in which the table is stored or scanned: two tables with the
    same readings in a different order keep the same readings, form the
    same (bucket, site, room) groups, one row each, and every group has the
    same members. *)
Theorem table_order_is_immaterial :
  forall (c : Criteria) (base_df base_df' : list Reading),
    Permutation base_df base_df' ->
    Permutation (filtered c base_df) (filtered c base_df') /\
    Permutation
      (map row_key (df_buck (granularity c) (filtered c base_df)))
      (map row_key (df_buck (granularity c) (filtered c base_df'))) /\
    forall k,
      Permutation (members (granularity c) k (filtered c base_df))
                  (members (granularity c) k (filtered c base_df')).
Proof.
  intros c base_df base_df' Hp.
  assert (Hf : Permutation (filtered c base_df) (filtered c base_df'))
    by (rewrite !filtered_passes; now apply filter_perm).
  split; [exact Hf|]. split.
  - rewrite !df_buck_keys.
    apply (unique_perm key_eqb _ _ key_eqb_spec).
    now apply Permutation_map.
  - intros k. now apply filter_perm.
Qed.

Lemma table_order_is_immaterial_witness :
  Permutation
    (members hour (row_key Sample.rowA)
       (filtered (Sample.whole_day hour)
          [Sample.rB; Sample.r0800; Sample.r0830]))
    (members hour (row_key Sample.rowA)
       (filtered (Sample.whole_day hour)
          [Sample.r0830; Sample.r0800; Sample.rB])).
Proof.
  destruct (table_order_is_immaterial (Sample.whole_day hour)
              [Sample.rB; Sample.r0800; Sample.r0830]
              [Sample.r0830; Sample.r0800; Sample.rB]) as (_ & _ & H).
  - apply Permutation_rev.
  - apply H.
Defined.

(** ** The location picker *)

Lemma filter_all {A : Type} (f : A -> bool) (l : list A) :
  (forall x, In x l -> f x = true) -> filter f l = l.
Proof.
  induction l as [|a l IH]; simpl; intros H; [reflexivity|].
  rewrite (H a) by now left. f_equal. apply IH. intros x Hx. apply H. now right.
Qed.

Lemma locations_NoDup (pdf : list AggRow) : NoDup (locations pdf).
Proof. apply sort_with_NoDup, unique_NoDup, String.eqb_eq. Qed.

Lemma NoDup_firstn_skipn {A : Type} (n : nat) (l : list A) (x : A) :
  NoDup l -> In x (skipn n l) -> ~ In x (firstn n l).
Proof.
  intros Hnd Hs Hf. rewrite <- (firstn_skipn n l) in Hnd.
  revert Hnd Hf Hs. generalize (firstn n l) (skipn n l).
  intros l1 l2 Hnd Hf Hs. induction l1 as [|a l1 IH]; [contradiction|].
  simpl in Hnd. inversion Hnd as [|? ? Hn Hd]; subst.
  destruct Hf as [-> | Hf]; [|now apply IH].
  apply Hn. apply in_or_app. now right.
Qed.

(** The location picker offers the labels of the frame, each once, in
    ascending order, and is seeded with the first five of them (with all
    of them when there are at most five).  With all labels selected every
    row is plotted; so with the seed every row is plotted when the frame
    has at most five locations, and otherwise the rows of the sixth and
    later labels are left out of the charts, the export and the table. *)
Theorem picker_seed_plots :
  forall pdf : list AggRow,
    NoDup (locations pdf) /\
    Sorted (fun a b => String.leb a b = true) (locations pdf) /\
    (forall l, In l (locations pdf) <-> exists a, In a pdf /\ location a = l) /\
    default_locations pdf = firstn 5 (locations pdf) /\
    plot_df pdf (locations pdf) = pdf /\
    ((List.length (locations pdf) <= 5)%nat ->
     plot_df pdf (default_locations pdf) = pdf) /\
    forall a,
      In a pdf ->
      In (location a) (skipn 5 (locations pdf)) ->
      ~ In a (plot_df pdf (default_locations pdf)).
Proof.
  intros pdf.
  assert (Hd : default_locations pdf = firstn 5 (locations pdf)).
  { unfold default_locations.
    destruct (Nat.le_ge_cases 5 (List.length (locations pdf))) as [H|H].
    - now rewrite Nat.min_l.
    - rewrite Nat.min_r by assumption.
      now rewrite !firstn_all2 by lia. }
  assert (Hall : plot_df pdf (locations pdf) = pdf).
  { apply filter_all. intros a Ha. apply isin_In, locations_In.
    now apply in_map. }
  split; [apply locations_NoDup|].
  split; [apply sort_with_Sorted, String.leb_total|].
  split.
  { intros l. rewrite locations_In, in_map_iff.
    split; intros (a & H1 & H2); exists a; tauto. }
  split; [exact Hd|]. split; [exact Hall|]. split.
  - intros Hle. rewrite Hd, firstn_all2 by assumption. exact Hall.
  - intros a Ha Hs Hin. unfold plot_df in Hin.
    apply filter_In in Hin. destruct Hin as [_ Hin].
    apply isin_In in Hin. rewrite Hd in Hin.
    now apply (NoDup_firstn_skipn 5 (locations pdf) (location a)
                 (locations_NoDup pdf)).
Qed.

Lemma picker_seed_plots_witness :
  plot_df [Sample.x8; Sample.x9; Sample.y9]
    (default_locations [Sample.x8; Sample.x9; Sample.y9]) =
  [Sample.x8; Sample.x9; Sample.y9].
Proof.
  destruct (picker_seed_plots [Sample.x8; Sample.x9; Sample.y9])
    as (_ & _ & _ & _ & _ & H & _).
  apply H. apply Nat.leb_le. reflexivity.
Defined.

(** ** The charts *)





(** No plotted row is lost in the reshape: in each of the two tables,
    every row to plot is found at the cell of its bucket and its location,
    holding the row's mean. *)
Theorem reshape_keeps_every_row :
  forall (rows : list AggRow) (values : AggRow -> float) (w : Wide) (a : AggRow),
    values = AVG_TEMP_C /\ temp_wide rows = Next w \/
    values = AVG_HUMIDITY /\ hum_wide rows = Next w ->
    In a rows ->
    exists i j,
      nth_error (index w) i = Some (TS_BUCKET a) /\
      nth_error (columns w) j = Some (location a) /\
      cell w i j = Some (values a).
Proof.
  intros rows values w a Hw Ha.
  assert (E : map_step sort_index (pivot values rows) = Next w).
  { destruct Hw as [[-> H] | [-> H]]; exact H. }
  assert (Hnd : NoDup (cell_keys rows)).
  { apply (pivot_Next_iff values).
    destruct (pivot values rows) as [w0| |e]; simpl in E;
      try discriminate; eauto. }
  destruct (wide_shape values rows w E) as (_ & H2 & _ & H4 & _ & _ & H7).
  assert (Hi : In (TS_BUCKET a) (index w)) by (apply H2; now apply in_map).
  assert (Hj : In (location a) (columns w)) by (apply H4; now apply in_map).
  apply In_nth_error in Hi. destruct Hi as [i Hi].
  apply In_nth_error in Hj. destruct Hj as [j Hj].
  exists i, j. split; [assumption|]. split; [assumption|].
  rewrite (H7 i j _ _ Hi Hj). apply cell_value_Some; [assumption|].
  exists a. auto.
Qed.

Lemma reshape_keeps_every_row_witness :
  exists i j,
    nth_error [Sample.at_clock 8 0; Sample.at_clock 9 0] i =
    Some (TS_BUCKET Sample.y9) /\
    nth_error ["X / 1"; "Y / 1"] j = Some (location Sample.y9) /\
    cell {| index := [Sample.at_clock 8 0; Sample.at_clock 9 0];
            columns := ["X / 1"; "Y / 1"];
            cells := [[Some 50%float; None]; [Some 51%float; Some 0%float]] |} i j =
    Some (AVG_HUMIDITY Sample.y9).
Proof.
  apply (reshape_keeps_every_row [Sample.x8; Sample.x9; Sample.y9]
           AVG_HUMIDITY
           {| index := [Sample.at_clock 8 0; Sample.at_clock 9 0];
              columns := ["X / 1"; "Y / 1"];
              cells := [[Some 50%float; None]; [Some 51%float; Some 0%float]] |}
           Sample.y9).
  - right. split; reflexivity.
  - right. right. now left.
Defined.

(** ** The memo table of the export *)

Lemma cache_lookup_keeps (df df' : list AggRow) (data d : string)
  (cache : list (list AggRow * string)) :
  cache_lookup df cache = None ->
  cache_lookup df' cache = Some d ->
  cache_lookup df' ((df, data) :: cache) = Some d.
Proof.
  intros Hmiss Hhit. unfold cache_lookup. simpl.
  destruct (frame_eqb df df') eqn:E; [|exact Hhit].
  apply frame_eqb_eq in E. subst df'. congruence.
Qed.

(** [convert_for_download] never fails and draws nothing.  Called again
    with the same frame it replays the bytes of the first call and leaves
    the memo table as it is; a frame that was in the memo table before a
    call is still there after it, with the same bytes.  If every entry of
    the memo table holds the CSV text of its frame, the call returns the
    CSV text of its argument and the memo table still has that property;
    a frame that is not in the memo table always gets its own CSV text. *)
Theorem memo_replays :
  forall (fmt : CellFormat) (df : list AggRow) (s : Session),
    let r := convert_for_download fmt df s in
    (exists data, fst r = Next data) /\
    screen (snd r) = screen s /\
    convert_for_download fmt df (snd r) = r /\
    (forall df' d,
        cache_lookup df' (csv_cache s) = Some d ->
        cache_lookup df' (csv_cache (snd r)) = Some d) /\
    (cache_lookup df (csv_cache s) = None -> fst r = Next (to_csv fmt df)) /\
    (cache_sound fmt (csv_cache s) ->
     fst r = Next (to_csv fmt df) /\ cache_sound fmt (csv_cache (snd r))).
Proof.
  intros fmt df s r. unfold r, convert_for_download.
  destruct (cache_lookup df (csv_cache s)) as [data|] eqn:E; simpl.
  - split; [eauto|]. split; [reflexivity|]. split; [now rewrite E|].
    split; [auto|]. split; [discriminate|].
    intros Hc. split; [|assumption].
    f_equal. eapply cache_lookup_sound; eassumption.
  - split; [eauto|]. split; [reflexivity|].
    split; [now rewrite cache_lookup_head|].
    split; [intros df' d Hd; now apply cache_lookup_keeps|].
    split; [reflexivity|].
    intros Hc. split; [reflexivity|]. constructor; [reflexivity | assumption].
Qed.

Lemma memo_replays_witness :
  fst (convert_for_download Sample.plain [Sample.x8] fresh) =
  Next (to_csv Sample.plain [Sample.x8]).
Proof.
  destruct (memo_replays Sample.plain [Sample.x8] fresh)
    as (_ & _ & _ & _ & H & _).
  apply H. reflexivity.
Defined.

Lemma exports_app (ws1 ws2 : list Widget) :
  exports (ws1 ++ ws2) = exports ws1 ++ exports ws2.
Proof.
  induction ws1 as [|w ws1 IH]; simpl; [reflexivity|].
  destruct (exported w); simpl; now rewrite IH.
Qed.

Lemma charts_app (ws1 ws2 : list Widget) :
  filter is_chart (ws1 ++ ws2) = filter is_chart ws1 ++ filter is_chart ws2.
Proof. apply filter_app. Qed.

(** What a run that does not reach its last line leaves on the screen
    holds no download button. *)
Lemma present_no_export (fmt : CellFormat) (pdf : list AggRow)
  (sel_locs : list string) (s : Session) :
  fst (present fmt pdf sel_locs s) <> Next tt ->
  exports (screen (snd (present fmt pdf sel_locs s))) = exports (screen s).
Proof.
  destruct pdf as [|a pdf].
  { intros _. rewrite present_empty. simpl.
    rewrite exports_app. simpl. apply app_nil_r. }
  remember (a :: pdf) as rows eqn:Erows.
  assert (Ef : frame_empty rows = false) by now subst.
  step_script. rewrite Ef. simpl.
  destruct (frame_empty (plot_df rows sel_locs)); simpl.
  - destruct (cache_lookup (plot_df rows sel_locs) (csv_cache s)); simpl;
      intros H; congruence.
  - destruct (temp_wide (plot_df rows sel_locs)); simpl;
      try (intros _; rewrite !exports_app; simpl; now rewrite !app_nil_r).
    destruct (hum_wide (plot_df rows sel_locs)); simpl;
      try (intros _; rewrite !exports_app; simpl; now rewrite !app_nil_r).
    destruct (cache_lookup (plot_df rows sel_locs) (csv_cache s)); simpl;
      intros H; congruence.
Qed.

(** Started with a memo table whose entries hold the CSV text of their
    frames, a run leaves such a memo table.  A run that reaches its last
    line offers for download exactly the CSV text of the rows to plot; a
    run that stops or fails offers nothing for download. *)
Theorem export_is_plotted_rows :
  forall (fmt : CellFormat) (pdf : list AggRow) (sel_locs : list string)
         (s : Session),
    cache_sound fmt (csv_cache s) ->
    let out := present fmt pdf sel_locs s in
    cache_sound fmt (csv_cache (snd out)) /\
    (fst out = Next tt ->
     exports (screen (snd out)) =
     exports (screen s) ++ [to_csv fmt (plot_df pdf sel_locs)]) /\
    (fst out <> Next tt -> exports (screen (snd out)) = exports (screen s)).
Proof.
  intros fmt pdf sel_locs s Hc out. unfold out.
  destruct (present_exports fmt pdf sel_locs s Hc) as [H1 H2].
  split; [exact H1|]. split; [exact H2|].
  apply present_no_export.
Qed.

Lemma export_is_plotted_rows_witness :
  exports (screen (snd (present Sample.plain [Sample.x8; Sample.y9]
                          ["Y / 1"] fresh))) =
  exports (screen fresh) ++ [to_csv Sample.plain [Sample.y9]].
Proof.
  destruct (export_is_plotted_rows Sample.plain [Sample.x8; Sample.y9]
              ["Y / 1"] fresh) as (_ & H & _).
  - constructor.
  - apply H. reflexivity.
Defined.

(** ** Charts on the screen *)

Lemma present_charts (fmt : CellFormat) (pdf : list AggRow)
  (sel_locs : list string) (s : Session) :
  filter is_chart (screen (snd (present fmt pdf sel_locs s))) =
  filter is_chart (screen s) ++
  match pdf, plot_df pdf sel_locs with
  | [], _ => []
  | _ :: _, [] => []
  | _ :: _, _ :: _ =>
      match temp_wide (plot_df pdf sel_locs), hum_wide (plot_df pdf sel_locs) with
      | Next w1, Next w2 => [line_chart w1; line_chart w2]
      | Next w1, _ => [line_chart w1]
      | _, _ => []
      end
  end.
Proof.
  destruct pdf as [|a pdf].
  { rewrite present_empty. simpl. now rewrite charts_app. }
  remember (a :: pdf) as rows eqn:Erows.
  assert (Ef : frame_empty rows = false) by now subst.
  rewrite Erows at 2. rewrite <- Erows.
  step_script. rewrite Ef. simpl.
  destruct (plot_df rows sel_locs) as [|b df] eqn:Ed; simpl.
  - destruct (cache_lookup [] (csv_cache s)); simpl;
      rewrite !charts_app; simpl; now rewrite !app_nil_r.
  - destruct (temp_wide (b :: df)); simpl;
      try (rewrite !charts_app; simpl; now rewrite !app_nil_r).
    destruct (hum_wide (b :: df)); simpl;
      try (rewrite !charts_app; simpl; now rewrite !app_nil_r).
    destruct (cache_lookup (b :: df) (csv_cache s)); simpl;
      rewrite !charts_app; simpl; rewrite !app_nil_r;
      now rewrite <- !app_assoc.
Qed.

(** A run draws two charts or none.  When it reaches its last line with
    rows to plot it draws the temperature table and then the humidity
    table; when the selection matches no row, when the frame is empty or
    when the reshape fails it draws no chart at all. *)
Theorem two_charts_or_none :
  forall (fmt : CellFormat) (pdf : list AggRow) (sel_locs : list string)
         (s : Session),
    let out := present fmt pdf sel_locs s in
    (fst out = Next tt -> plot_df pdf sel_locs <> [] ->
     exists w1 w2,
       temp_wide (plot_df pdf sel_locs) = Next w1 /\
       hum_wide (plot_df pdf sel_locs) = Next w2 /\
       filter is_chart (screen (snd out)) =
       filter is_chart (screen s) ++ [line_chart w1; line_chart w2]) /\
    (fst out <> Next tt \/ plot_df pdf sel_locs = [] ->
     filter is_chart (screen (snd out)) = filter is_chart (screen s)).
Proof.
  intros fmt pdf sel_locs s out. unfold out. rewrite present_charts.
  destruct pdf as [|a pdf].
  { rewrite present_empty. simpl. split; [discriminate|].
    intros _. apply app_nil_r. }
  assert (Hne : a :: pdf <> []) by discriminate.
  destruct (present_outcome fmt (a :: pdf) sel_locs s Hne) as [Hok Hbad].
  destruct (plot_df (a :: pdf) sel_locs) as [|b df] eqn:Ed.
  { split; [congruence|]. intros _. apply app_nil_r. }
  destruct (NoDup_cell_keys_dec (b :: df)) as [Hnd | Hd].
  - rewrite (Hok Hnd).
    unfold temp_wide, hum_wide.
    destruct (proj2 (pivot_Next_iff AVG_TEMP_C _) Hnd) as [w1 ->].
    destruct (proj2 (pivot_Next_iff AVG_HUMIDITY _) Hnd) as [w2 ->].
    simpl. split; [eauto|].
    intros [H | H]; congruence.
  - rewrite (Hbad Hd).
    unfold temp_wide, hum_wide.
    rewrite (proj2 (pivot_Raise_iff AVG_TEMP_C _) Hd). simpl.
    split; [discriminate|]. intros _. apply app_nil_r.
Qed.

Lemma two_charts_or_none_witness :
  filter is_chart
    (screen (snd (present Sample.plain [Sample.x8; Sample.x9; Sample.y9]
                    ["Z / 9"] fresh))) =
  filter is_chart (screen fresh).
Proof.
  destruct (two_charts_or_none Sample.plain [Sample.x8; Sample.x9; Sample.y9]
              ["Z / 9"] fresh) as [_ H].
  apply H. right. reflexivity.
Defined.

(** ** Empty selections *)

(** Clearing a picker widens the result: with the same time range, a
    criteria record with no site selected keeps every reading that the
    same record with any site selection keeps, and likewise for rooms. *)
Theorem empty_selection_is_widest :
  forall (c : Criteria) (table : list Reading) (r : Reading),
    In r (filtered c table) ->
    In r (filtered
            {| start_date := start_date c; end_date := end_date c;
               start_time := start_time c; end_time := end_time c;
               granularity := granularity c;
               sel_sites := []; sel_rooms := sel_rooms c |} table) /\
    In r (filtered
            {| start_date := start_date c; end_date := end_date c;
               start_time := start_time c; end_time := end_time c;
               granularity := granularity c;
               sel_sites := sel_sites c; sel_rooms := [] |} table).
Proof.
  intros c table r. rewrite !filtered_passes, !filter_In.
  unfold passes, in_range, start_dt, end_dt. simpl.
  rewrite !andb_true_iff. intros [Hin [[[H1 H2] Hs] Hm]].
  repeat split; assumption.
Qed.

Lemma empty_selection_is_widest_witness :
  In Sample.r0800
    (filtered
       {| start_date := start_date site_A_only;
          end_date := end_date site_A_only;
          start_time := start_time site_A_only;
          end_time := end_time site_A_only;
          granularity := granularity site_A_only;
          sel_sites := []; sel_rooms := sel_rooms site_A_only |}
       [Sample.rB; Sample.r0800]).
Proof.
  assert (Hin : In Sample.r0800 (filtered site_A_only [Sample.rB; Sample.r0800])).
  { rewrite filtered_passes. apply filter_In.
    split; [right; now left | vm_compute; reflexivity]. }
  destruct (empty_selection_is_widest site_A_only [Sample.rB; Sample.r0800]
              Sample.r0800 Hin) as [H _].
  exact H.
Defined.
